(** * oadr2.event: the VEN event handler of the OpenADR 2.0 client

    A shallow embedding of [src/oadr2/event.py].  XML trees (lxml
    elements) are an inductive type, the element-path queries the module
    uses ([find], [findtext], [iterfind]) are functions over it, Python
    exceptions are the [Raise] case of [result], and the mutable event
    database is passed explicitly from state to state. *)

From Stdlib Require Import ZArith String Ascii DecimalString DecimalZ.
From stdpp Require Import base option list strings gmap fin_maps.

Set Warnings "-register-all".

Local Open Scope string_scope.
Local Open Scope Z_scope.

(** ** Python values and exceptions *)

Inductive exn := TypeError | ValueError | AttributeError | KeyError.

Inductive result (A : Type) :=
| Ok (a : A)
| Raise (e : exn).
Arguments Ok {A} a.
Arguments Raise {A} e.

#[global] Instance result_ret : MRet result := fun _ a => Ok a.
#[global] Instance result_fmap : FMap result := fun _ _ f m =>
  match m with
  | Ok a => Ok (f a)
  | Raise e => Raise e
  end.
#[global] Instance result_bind : MBind result := fun _ _ f m =>
  match m with
  | Ok a => f a
  | Raise e => Raise e
  end.

(** [None] is Python's [None]; the texts lxml hands out are strings. *)
Abbreviation pystr := (option string).

(** Truth value of a text that may be [None]: [None] and [''] are false. *)
Definition truthy (s : pystr) : bool :=
  match s with
  | None | Some "" => false
  | Some _ => true
  end.

(** [x in l] for a text [x] and a list of texts. *)
Definition py_in (x : pystr) (l : list pystr) : bool := bool_decide (x ∈ l).

(** [x in l] where [l] holds strings only: [None] is in no such list. *)
Definition py_in_strs (x : pystr) (l : list string) : bool :=
  py_in x (Some <$> l).

(** *** [int(text)]

    Python 2's [int] on a text: surrounding white space is dropped, one
    sign is allowed, and at least one decimal digit must follow.  [None]
    is a [TypeError], any other text a [ValueError].  (ASCII texts.) *)

Definition is_space (a : ascii) : bool :=
  let n := nat_of_ascii a in
  bool_decide (n = 32%nat) || (bool_decide (9 ≤ n)%nat && bool_decide (n ≤ 13)%nat).

Definition digit_of (a : ascii) : option Z :=
  let n := nat_of_ascii a in
  if bool_decide (48 ≤ n)%nat && bool_decide (n ≤ 57)%nat
  then Some (Z.of_nat (n - 48))
  else None.

Fixpoint lstrip (s : string) : string :=
  match s with
  | String a s' => if is_space a then lstrip s' else s
  | EmptyString => EmptyString
  end.

Fixpoint rstrip (s : string) : string :=
  match s with
  | String a s' =>
      match rstrip s' with
      | EmptyString => if is_space a then EmptyString else String a EmptyString
      | r => String a r
      end
  | EmptyString => EmptyString
  end.

Fixpoint digits_value (acc : Z) (s : string) : option Z :=
  match s with
  | EmptyString => Some acc
  | String a s' =>
      match digit_of a with
      | Some d => digits_value (10 * acc + d) s'
      | None => None
      end
  end.

Definition unsigned_value (s : string) : option Z :=
  match s with
  | EmptyString => None
  | _ => digits_value 0 s
  end.

Definition parse_int (s : string) : option Z :=
  match rstrip (lstrip s) with
  | String "-" r => Z.opp <$> unsigned_value r
  | String "+" r => unsigned_value r
  | r => unsigned_value r
  end.

Definition py_int (s : pystr) : result Z :=
  match s with
  | None => Raise TypeError
  | Some s =>
      match parse_int s with
      | Some z => Ok z
      | None => Raise ValueError
      end
  end.

(** [str(n)] for an integer. *)
Definition py_str (z : Z) : string := NilZero.string_of_int (Z.to_int z).

(** [s.split(',')] *)
Fixpoint split_comma (s : string) : list string :=
  match s with
  | EmptyString => [EmptyString]
  | String a s' =>
      if bool_decide (a = ","%char) then EmptyString :: split_comma s'
      else match split_comma s' with
           | x :: xs => String a x :: xs
           | [] => [String a EmptyString]
           end
  end.

(** ** XML elements and element paths (lxml)

    An element has a qualified tag (namespace URI and local name, lxml's
    [{uri}local]), a text that may be missing, and its child elements in
    document order. *)

Inductive Element :=
| Elem (tag : string * string) (text : pystr) (children : list Element).

Definition tag (e : Element) : string * string :=
  match e with Elem t _ _ => t end.
Definition text (e : Element) : pystr :=
  match e with Elem _ x _ => x end.
Definition children (e : Element) : list Element :=
  match e with Elem _ _ cs => cs end.

(** A namespace map is a Python dict from prefixes to URIs. *)
Abbreviation nsmap := (gmap string string).

(** The steps of the paths used in this module: [prefix:name] selects
    children, [//prefix:name] selects descendants. *)
Inductive step :=
| child (q : string * string)
| descendant (q : string * string).

(** Does [e] carry the tag [prefix:name]?  lxml refuses a prefix that the
    map does not bind; here such a step selects nothing (both maps of this
    module bind every prefix the paths below use). *)
Definition tag_is (ns_map : nsmap) (q : string * string) (e : Element) : bool :=
  match ns_map !! q.1 with
  | Some uri => bool_decide (tag e = (uri, q.2))
  | None => false
  end.

(** All proper descendants, in document order. *)
Fixpoint descendants (e : Element) : list Element :=
  match e with
  | Elem _ _ cs => flat_map (fun c => c :: descendants c) cs
  end.

Definition select (ns_map : nsmap) (st : step) (e : Element) : list Element :=
  match st with
  | child q => List.filter (tag_is ns_map q) (children e)
  | descendant q => List.filter (tag_is ns_map q) (descendants e)
  end.

(** [e.iterfind(path, namespaces=ns_map)], as a list in document order. *)
Fixpoint iterfind (e : Element) (path : list step) (ns_map : nsmap)
  : list Element :=
  match path with
  | [] => [e]
  | st :: path' =>
      flat_map (fun c => iterfind c path' ns_map) (select ns_map st e)
  end.

(** [e.find(path, namespaces=ns_map)]: the first match or [None]. *)
Definition find (e : Element) (path : list step) (ns_map : nsmap)
  : option Element :=
  head (iterfind e path ns_map).

(** [e.findtext(path, namespaces=ns_map)]: [None] when nothing matches,
    the empty string for a match without text. *)
Definition findtext (e : Element) (path : list step) (ns_map : nsmap) : pystr :=
  match find e path ns_map with
  | Some x => Some (default "" (text x))
  | None => None
  end.

(** The children [cs] with the first one that passes [test] and that [f]
    can update replaced by its update; [None] when there is none. *)
Fixpoint update_first_child (test : Element -> bool)
    (f : Element -> option Element) (cs : list Element)
  : option (list Element) :=
  match cs with
  | [] => None
  | c :: cs' =>
      if test c then
        match f c with
        | Some c' => Some (c' :: cs')
        | None => cons c <$> update_first_child test f cs'
        end
      else cons c <$> update_first_child test f cs'
  end.

(** [e.find(path).text = s] for a path of child steps, given by the names
    of its steps: the tree with the text of the first match replaced;
    [None] when there is no match (assigning to an attribute of Python's
    [None]). *)
Fixpoint set_text_first (ns_map : nsmap) (names : list (string * string))
    (s : string) (e : Element) : option Element :=
  match names with
  | [] => Some (Elem (tag e) (Some s) (children e))
  | q :: names' =>
      cs ← update_first_child (tag_is ns_map q)
             (set_text_first ns_map names' s) (children e);
      Some (Elem (tag e) (text e) cs)
  end.

(** ** Namespace maps and constants of the module *)

Definition OADR_XMLNS_A := "http://openadr.org/oadr-2.0a/2012/07".
Definition PYLD_XMLNS_A := "http://docs.oasis-open.org/ns/energyinterop/201110/payloads".
Definition EI_XMLNS_A := "http://docs.oasis-open.org/ns/energyinterop/201110".
Definition EMIX_XMLNS_A := "http://docs.oasis-open.org/ns/emix/2011/06".
Definition XCAL_XMLNS_A := "urn:ietf:params:xml:ns:icalendar-2.0".
Definition STRM_XMLNS_A := "urn:ietf:params:xml:ns:icalendar-2.0:stream".

Definition NS_A : nsmap :=
  list_to_map
    [ ("oadr", OADR_XMLNS_A); ("pyld", PYLD_XMLNS_A); ("ei", EI_XMLNS_A);
      ("emix", EMIX_XMLNS_A); ("xcal", XCAL_XMLNS_A); ("strm", STRM_XMLNS_A) ].

Definition OADR_XMLNS_B := "http://openadr.org/oadr-2.0b/2012/07".
Definition DSIG11_XMLNS_B := "http://www.w3.org/2009/xmldsig11#".
Definition DS_XMLNS_B := "http://www.w3.org/2000/09/xmldsig#".
Definition CLM5ISO42173A_XMLNS_B :=
  "urn:un:unece:uncefact:codelist:standard:5:ISO42173A:2010-04-07".
Definition SCALE_XMLNS_B := "http://docs.oasis-open.org/ns/emix/2011/06/siscale".
Definition POWER_XMLNS_B := "http://docs.oasis-open.org/ns/emix/2011/06/power".
Definition GB_XMLNS_B := "http://naesb.org/espi".
Definition ATOM_XMLNS_B := "http://www.w3.org/2005/Atom".
Definition CCTS_XMLNS_B :=
  "urn:un:unece:uncefact:documentation:standard:CoreComponentsTechnicalSpecification:2".
Definition GML_XMLNS_B := "http://www.opengis.net/gml/3.2".
Definition GMLSF_XMLNS_B := "http://www.opengis.net/gmlsf/2.0".
Definition XSI_XMLNS_B := "http://www.w3.org/2001/XMLSchema-instance".

Definition NS_B : nsmap :=
  list_to_map
    [ ("oadr", OADR_XMLNS_B); ("pyld", PYLD_XMLNS_A); ("ei", EI_XMLNS_A);
      ("emix", EMIX_XMLNS_A); ("xcal", XCAL_XMLNS_A); ("strm", STRM_XMLNS_A);
      ("dsig11", DSIG11_XMLNS_B); ("ds", DS_XMLNS_B);
      ("clm", CLM5ISO42173A_XMLNS_B); ("scale", SCALE_XMLNS_B);
      ("power", POWER_XMLNS_B); ("gb", GB_XMLNS_B); ("atom", ATOM_XMLNS_B);
      ("ccts", CCTS_XMLNS_B); ("gml", GML_XMLNS_B); ("gmlsf", GMLSF_XMLNS_B);
      ("xsi", XSI_XMLNS_B) ].

Definition VALID_SIGNAL_TYPES : list string :=
  ["level"; "price"; "delta"; "setpoint"].
Definition OADR_PROFILE_20A := "2.0a".
Definition OADR_PROFILE_20B := "2.0b".

(** ** Accessors of an [ei:eiEvent] element *)

Definition get_event_id (evt : Element) (ns_map : nsmap) : pystr :=
  findtext evt [child ("ei", "eventDescriptor"); child ("ei", "eventID")] ns_map.

Definition get_status (evt : Element) (ns_map : nsmap) : pystr :=
  findtext evt [child ("ei", "eventDescriptor"); child ("ei", "eventStatus")]
    ns_map.

Definition get_mod_number (evt : Element) (ns_map : nsmap) : result Z :=
  py_int
    (findtext evt
       [child ("ei", "eventDescriptor"); child ("ei", "modificationNumber")]
       ns_map).

Definition get_market_context (evt : Element) (ns_map : nsmap) : pystr :=
  findtext evt
    [child ("ei", "eventDescriptor"); child ("ei", "eiMarketContext");
     child ("emix", "marketContext")] ns_map.

Definition get_current_signal_value (evt : Element) (ns_map : nsmap) : pystr :=
  findtext evt
    [child ("ei", "eiEventSignals"); child ("ei", "eiEventSignal");
     child ("ei", "currentValue"); child ("ei", "payloadFloat");
     child ("ei", "value")] ns_map.

(** The test of the loop of [get_signals]. *)
Definition is_simple_signal (ns_map : nsmap) (signal : Element) : bool :=
  let signal_name := findtext signal [child ("ei", "signalName")] ns_map in
  let signal_type := findtext signal [child ("ei", "signalType")] ns_map in
  bool_decide (signal_name = Some "simple")
  && py_in_strs signal_type VALID_SIGNAL_TYPES.

(** The tuple [(duration, uid, value)] of one interval. *)
Definition interval_tuple (ns_map : nsmap) (interval : Element)
  : pystr * pystr * pystr :=
  (findtext interval [child ("xcal", "duration"); child ("xcal", "duration")]
     ns_map,
   findtext interval [child ("xcal", "uid"); child ("xcal", "text")] ns_map,
   findtext interval [child ("ei", "signalPayload"); descendant ("ei", "value")]
     ns_map).

(** The first loop of [get_signals]: every qualifying signal overwrites
    [simple_signal]. *)
Definition simple_signal (evt : Element) (ns_map : nsmap) : option Element :=
  foldl (fun acc signal => if is_simple_signal ns_map signal then Some signal else acc)
    None
    (iterfind evt [child ("ei", "eiEventSignals"); child ("ei", "eiEventSignal")]
       ns_map).

Definition get_signals (evt : Element) (ns_map : nsmap)
  : option (list (pystr * pystr * pystr)) :=
  match simple_signal evt ns_map with
  | None => None
  | Some signal =>
      Some (interval_tuple ns_map <$>
              iterfind signal [child ("strm", "intervals"); child ("ei", "interval")]
                ns_map)
  end.

(** The steps of the path to the start of the active period, all child
    steps. *)
Definition dtstart_names : list (string * string) :=
  [("ei", "eiActivePeriod"); ("xcal", "properties"); ("xcal", "dtstart");
   ("xcal", "date-time")].

Definition dtstart_path : list step := child <$> dtstart_names.

Definition tolerate_path (name : string) : list step :=
  [child ("ei", "eiActivePeriod"); child ("xcal", "properties");
   child ("xcal", "tolerance"); child ("xcal", "tolerate");
   child ("xcal", name)].

Definition get_start_before_after (evt : Element) (ns_map : nsmap)
  : pystr * pystr :=
  (findtext evt (tolerate_path "startbefore") ns_map,
   findtext evt (tolerate_path "startafter") ns_map).

Definition get_group_ids (evt : Element) (ns_map : nsmap) : list pystr :=
  text <$> iterfind evt [child ("ei", "eiTarget"); child ("ei", "groupID")] ns_map.

Definition get_resource_ids (evt : Element) (ns_map : nsmap) : list pystr :=
  text <$> iterfind evt [child ("ei", "eiTarget"); child ("ei", "resourceID")] ns_map.

Definition get_party_ids (evt : Element) (ns_map : nsmap) : list pystr :=
  text <$> iterfind evt [child ("ei", "eiTarget"); child ("ei", "partyID")] ns_map.

Definition get_ven_ids (evt : Element) (ns_map : nsmap) : list pystr :=
  text <$> iterfind evt [child ("ei", "eiTarget"); child ("ei", "venID")] ns_map.

(** ** The event database *)

Module database.

(** Modelled from the spec: the [database] module, with its class
    [DBHandler], is missing from the files this development is built on.
    The spec gives the event store as a durable map from event id to the
    latest accepted raw record with its owning VTN, one row
    [(vtnId, eventId, modificationNumber, rawPayload)] per event id.  The
    raw payload is kept as the tree it serialises: writing a tree out with
    [etree.tostring] and reading it back with [etree.XML] is taken to give
    the same tree. *)
Record row := Row {
  vtn_id : pystr;
  mod_num : Z;
  raw_xml : Element }.

Abbreviation DBHandler := (gmap pystr row).

(** Modelled from the spec: [DBHandler.get_active_events] is missing; the
    spec gives [getActiveEvents] as the full snapshot, from id to raw
    record. *)
Definition get_active_events (db : DBHandler) : gmap pystr Element :=
  raw_xml <$> db.

(** Modelled from the spec: [DBHandler.get_event] is missing; the spec
    gives [getEvent] as the raw record of an id, or nothing. *)
Definition get_event (db : DBHandler) (e_id : pystr) : option Element :=
  raw_xml <$> db !! e_id.

(** Modelled from the spec: [DBHandler.update_event] is missing; the spec
    gives [updateEvent] as an upsert that does not check the number. *)
Definition update_event (db : DBHandler) (e_id : pystr) (m : Z)
    (raw : Element) (vtn : pystr) : DBHandler :=
  <[e_id := Row vtn m raw]> db.

(** Modelled from the spec: [DBHandler.remove_events] is missing; the spec
    gives [removeEvents] as the removal of the rows of the given ids. *)
Definition remove_events (db : DBHandler) (evt_id_list : list pystr)
  : DBHandler :=
  foldr delete db evt_id_list.

End database.

(** ** The scheduling helpers *)

(** Modelled from the spec: the [schedule] module is missing from the files
    this development is built on.  The handler uses three of its
    functions: the parser and the printer of time stamps, and
    [random_offset], which the spec gives as returning a time stamp within
    the tolerance window around a start.  They are parameters of the
    handler, taken to return; nothing below depends on which time stamp is
    drawn. *)
Class Schedule := {
  datetime : Type;
  str_to_datetime : pystr -> datetime;
  dttm_to_str : datetime -> string;
  random_offset : datetime -> pystr -> pystr -> datetime }.

(** ** The handler *)

(** What the callback is handed: the updated events by id, and the removed
    events by id (each as [get_event] returned it). *)
Abbreviation updated_map := (gmap pystr Element).
Abbreviation removed_map := (gmap pystr (option Element)).

(** The attributes [__init__] sets, but for [db]: the database is the
    mutable state the methods below take and return. *)
Record EventHandler := {
  ven_id : string;
  vtn_ids : option (list string);
  market_contexts : option (list string);
  group_id : pystr;
  resource_id : pystr;
  party_id : pystr;
  oadr_profile_level : string;
  ns_map : nsmap;
  event_callback : option (updated_map -> removed_map -> result unit) }.

(** [EventHandler.__init__] *)
Definition EventHandler_init (ven_id : string) (vtn_ids : pystr)
    (market_contexts : pystr) (group_id resource_id party_id : pystr)
    (oadr_profile_level : string)
    (event_callback : option (updated_map -> removed_map -> result unit))
  : EventHandler :=
  let vtn_ids := split_comma <$> vtn_ids in
  let market_contexts := split_comma <$> market_contexts in
  if bool_decide (oadr_profile_level = OADR_PROFILE_20A) then
    Build_EventHandler ven_id vtn_ids market_contexts group_id resource_id
      party_id oadr_profile_level NS_A event_callback
  else if bool_decide (oadr_profile_level = OADR_PROFILE_20B) then
    Build_EventHandler ven_id vtn_ids market_contexts group_id resource_id
      party_id oadr_profile_level NS_B event_callback
  else
    Build_EventHandler ven_id vtn_ids market_contexts group_id resource_id
      party_id OADR_PROFILE_20A NS_A event_callback.

(** Truth value of a list: the empty list is false. *)
Definition nonempty {A} (l : list A) : bool :=
  match l with
  | [] => false
  | _ :: _ => true
  end.

(** Truth value of a list attribute that may be [None]. *)
Definition nonempty_attr {A} (l : option (list A)) : bool :=
  match l with
  | Some l => nonempty l
  | None => false
  end.

(** [EventHandler.check_target_info] *)
Definition check_target_info (self : EventHandler) (evt : Element) : bool :=
  let party_ids := get_party_ids evt (ns_map self) in
  let group_ids := get_group_ids evt (ns_map self) in
  let resource_ids := get_resource_ids evt (ns_map self) in
  let ven_ids := get_ven_ids evt (ns_map self) in
  if nonempty party_ids || nonempty group_ids
     || nonempty resource_ids || nonempty ven_ids
  then
    let accept := false in
    let accept :=
      if nonempty party_ids && py_in (party_id self) party_ids
      then true else accept in
    let accept :=
      if nonempty group_ids && py_in (group_id self) group_ids
      then true else accept in
    let accept :=
      if nonempty resource_ids && py_in (resource_id self) resource_ids
      then true else accept in
    let accept :=
      if nonempty ven_ids && py_in (Some (ven_id self)) ven_ids
      then true else accept in
    accept
  else true.

(** [EventHandler.get_active_events]: the stored events, parsed. *)
Definition get_active_events (db : database.DBHandler) : list Element :=
  (map_to_list (database.get_active_events db)).*2.

(** [EventHandler.get_event] *)
Definition get_event (db : database.DBHandler) (e_id : pystr) : option Element :=
  database.get_event db e_id.

(** [EventHandler.update_event] *)
Definition update_event (self : EventHandler) (db : database.DBHandler)
    (e_id : pystr) (event : Element) (vtn_id : pystr)
  : result database.DBHandler :=
  m ← get_mod_number event (ns_map self);
  mret (database.update_event db e_id m event vtn_id).

(** [EventHandler.remove_events] *)
Definition remove_events (db : database.DBHandler) (evt_id_list : list pystr)
  : database.DBHandler :=
  database.remove_events db evt_id_list.

(** *** The response payloads

    [ElementMaker] calls: a text argument becomes the text of the new
    element, element arguments its children; [None] as an argument is a
    [TypeError], a prefix missing from the map a [KeyError]. *)

Definition ns_get (ns_map : nsmap) (prefix : string) : result string :=
  match ns_map !! prefix with
  | Some uri => Ok uri
  | None => Raise KeyError
  end.

Definition E_text (uri name : string) (s : pystr) : result Element :=
  match s with
  | Some s => Ok (Elem (uri, name) (Some s) [])
  | None => Raise TypeError
  end.

(** One tuple of the reply list:
    [(e_id, mod_num, requestID, opt, status)]. *)
Definition decision : Type := pystr * Z * pystr * string * string.

(** [EventHandler.build_created_payload] *)
Definition build_created_payload (self : EventHandler) (events : list decision)
  : result Element :=
  oadr ← ns_get (ns_map self) "oadr";
  pyld ← ns_get (ns_map self) "pyld";
  ei ← ns_get (ns_map self) "ei";
  code ← E_text ei "responseCode" (Some "200");
  responses ← mapM (fun '(e_id, mod_num, requestID, opt, status) =>
      rc ← E_text ei "responseCode" (Some status);
      rid ← E_text pyld "requestID" requestID;
      eid ← E_text ei "eventID" e_id;
      mn ← E_text ei "modificationNumber" (Some (py_str mod_num));
      ot ← E_text ei "optType" (Some opt);
      mret (Elem (ei, "eventResponse") None
              [rc; rid; Elem (ei, "qualifiedEventID") None [eid; mn]; ot]))
    events;
  ven ← E_text ei "venID" (Some (ven_id self));
  mret (Elem (oadr, "oadrCreatedEvent") None
          [Elem (pyld, "eiCreatedEvent") None
             [Elem (ei, "eiResponse") None
                [code; Elem (pyld, "requestID") None []];
              Elem (ei, "eventResponses") None responses;
              ven]]).

(** [EventHandler.build_error_response] *)
Definition build_error_response (self : EventHandler) (request_id : pystr)
    (code : string) (description : pystr) : result Element :=
  oadr ← ns_get (ns_map self) "oadr";
  pyld ← ns_get (ns_map self) "pyld";
  ei ← ns_get (ns_map self) "ei";
  rc ← E_text ei "responseCode" (Some code);
  ven ← E_text ei "venID" (Some (ven_id self));
  mret (Elem (oadr, "oadrCreatedEvent") None
          [Elem (pyld, "eiCreatedEvent") None
             [Elem (ei, "eiResponse") None
                [rc; Elem (pyld, "requestID") None []];
              ven]]).

(** ** Handling a payload *)

(** The variables the loop of [handle_payload] carries from one event to
    the next, with the database. *)
Record loop_state := LoopState {
  reply_events : list decision;
  all_events : list pystr;
  updated_events : updated_map;
  st_db : database.DBHandler }.

(** What one call of [handle_payload] leaves behind: the payload returned
    or the exception raised, the database afterwards, and every call made
    to the callback, with the database as it stood at that call. *)
Record pass := Pass {
  returned : result (option Element);
  db_after : database.DBHandler;
  callback_calls : list (database.DBHandler * updated_map * removed_map) }.

(** [(old_event is None) or (e_mod_num > old_mod_num)] *)
Definition is_newer (old_mod_num : option Z) (e_mod_num : Z) : bool :=
  match old_mod_num with
  | None => true
  | Some m => bool_decide (m < e_mod_num)
  end.

(** [(old_event is not None) and (old_mod_num > e_mod_num)] *)
Definition is_older (old_mod_num : option Z) (e_mod_num : Z) : bool :=
  match old_mod_num with
  | None => false
  | Some m => bool_decide (e_mod_num < m)
  end.

(** The test that guards the reply of an event. *)
Definition reply_wanted (old_mod_num : option Z) (e_mod_num : Z)
    (response_required : pystr) : bool :=
  (is_newer old_mod_num e_mod_num
   || bool_decide (response_required = Some "always"))
  && negb (bool_decide (response_required = Some "never")).

(** [self.market_contexts and (e_market_context not in self.market_contexts)] *)
Definition market_context_mismatch (self : EventHandler)
    (e_market_context : pystr) : bool :=
  nonempty_attr (market_contexts self)
  && negb (py_in_strs e_market_context (default [] (market_contexts self))).

(** [self.vtn_ids and (vtnID not in self.vtn_ids)] *)
Definition vtn_rejected (self : EventHandler) (vtnID : pystr) : bool :=
  nonempty_attr (vtn_ids self)
  && negb (py_in_strs vtnID (default [] (vtn_ids self))).

(** The opt type and status of a reply: four tests in a row, each of which
    overwrites both variables when it fires. *)
Definition opt_status (self : EventHandler) (evt : Element)
    (old_mod_num : option Z) (e_mod_num : Z) (e_market_context : pystr)
  : string * string :=
  let '(opt, status) := ("optIn", "200") in
  let '(opt, status) :=
    if is_older old_mod_num e_mod_num then ("optOut", "403") else (opt, status) in
  let '(opt, status) :=
    if negb (check_target_info self evt) then ("optOut", "403")
    else (opt, status) in
  let valid_signals := get_signals evt (ns_map self) in
  let '(opt, status) :=
    if bool_decide (valid_signals = None) then ("optOut", "403")
    else (opt, status) in
  let '(opt, status) :=
    if market_context_mismatch self e_market_context then ("optOut", "405")
    else (opt, status) in
  (opt, status).

(** The modification number of the event stored under an id, [None] when
    there is none: [old_mod_num] in the loop of [handle_payload]. *)
Definition stored_mod_number (db : database.DBHandler) (e_id : pystr)
    (ns_map : nsmap) : result (option Z) :=
  match get_event db e_id with
  | Some old_event => Some <$> get_mod_number old_event ns_map
  | None => Ok None
  end.

Section handler.
Context `{Schedule}.

Definition get_active_period_start (evt : Element) (ns_map : nsmap)
  : datetime :=
  str_to_datetime (findtext evt dtstart_path ns_map).

Definition set_active_period_start (evt : Element) (dttm : datetime)
    (ns_map : nsmap) : result Element :=
  match set_text_first ns_map dtstart_names (dttm_to_str dttm) evt with
  | Some evt' => Ok evt'
  | None => Raise AttributeError
  end.

(** The start of an accepted event is moved when a tolerance is given. *)
Definition randomize_start (evt : Element) (ns_map : nsmap) : result Element :=
  let start_offset := get_start_before_after evt ns_map in
  if truthy start_offset.1 || truthy start_offset.2 then
    let start := get_active_period_start evt ns_map in
    let new_start := random_offset start start_offset.1 start_offset.2 in
    set_active_period_start evt new_start ns_map
  else Ok evt.

(** The body of the loop over the [oadr:oadrEvent] elements. *)
Definition handle_event (self : EventHandler) (requestID vtnID : pystr)
    (st : loop_state) (oadr_event : Element) : result loop_state :=
  let response_required :=
    findtext oadr_event [child ("oadr", "oadrResponseRequired")] (ns_map self) in
  match find oadr_event [child ("ei", "eiEvent")] (ns_map self) with
  | None => Raise AttributeError
  | Some evt =>
      let e_id := get_event_id evt (ns_map self) in
      e_mod_num ← get_mod_number evt (ns_map self);
      let e_market_context := get_market_context evt (ns_map self) in
      let all_events := (all_events st ++ [e_id])%list in
      old_mod_num ← stored_mod_number (st_db st) e_id (ns_map self);
      let reply_events :=
        if reply_wanted old_mod_num e_mod_num response_required then
          let '(opt, status) :=
            opt_status self evt old_mod_num e_mod_num e_market_context in
          (reply_events st ++ [(e_id, e_mod_num, requestID, opt, status)])%list
        else reply_events st in
      if is_newer old_mod_num e_mod_num then
        evt ← randomize_start evt (ns_map self);
        let updated_events := <[e_id := evt]> (updated_events st) in
        db ← update_event self (st_db st) e_id evt vtnID;
        mret (LoopState reply_events all_events updated_events db)
      else
        mret (LoopState reply_events all_events (updated_events st) (st_db st))
  end.

(** The loop: the state reached, and the exception that stopped it, if
    any (the state is then the one before the failing event). *)
Fixpoint for_events (self : EventHandler) (requestID vtnID : pystr)
    (events : list Element) (st : loop_state) : loop_state * option exn :=
  match events with
  | [] => (st, None)
  | oadr_event :: events' =>
      match handle_event self requestID vtnID st oadr_event with
      | Ok st' => for_events self requestID vtnID events' st'
      | Raise e => (st, Some e)
      end
  end.

(** The implicitly cancelled events: the stored events whose id the
    payload did not name. *)
Definition cancelled_events (self : EventHandler) (db : database.DBHandler)
    (all_events : list pystr) : removed_map :=
  foldl (fun remove_events evt =>
           let e_id := get_event_id evt (ns_map self) in
           if py_in e_id all_events then remove_events
           else <[e_id := get_event db e_id]> remove_events)
    ∅ (get_active_events db).

(** [EventHandler.handle_payload].  The callback's own result is dropped
    (an exception it raises is caught and logged); its call is recorded. *)
Definition handle_payload (self : EventHandler) (payload : Element)
    (db : database.DBHandler) : pass :=
  let requestID := findtext payload [child ("pyld", "requestID")] (ns_map self) in
  let vtnID := findtext payload [child ("ei", "vtnID")] (ns_map self) in
  if vtn_rejected self vtnID then
    Pass (Some <$> build_error_response self requestID "400"
                     (Some ("Unknown vtnID: " +:+ default "None" vtnID)))
      db []
  else
    match for_events self requestID vtnID
            (iterfind payload [child ("oadr", "oadrEvent")] (ns_map self))
            (LoopState [] [] ∅ db) with
    | (st, Some e) => Pass (Raise e) (st_db st) []
    | (st, None) =>
        let removed := cancelled_events self (st_db st) (all_events st) in
        let calls :=
          match event_callback self with
          | Some _ => [(st_db st, updated_events st, removed)]
          | None => []
          end in
        let db := remove_events (st_db st) (map_to_list removed).*1 in
        let reply :=
          match reply_events st with
          | [] => Ok None
          | _ => Some <$> build_created_payload self (reply_events st)
          end in
        Pass reply db calls
    end.

End handler.

(** ** Notions the statements below are phrased with *)

(** An event that names no party, group, resource or VEN. *)
Definition untargeted (ns_map : nsmap) (evt : Element) : Prop :=
  get_party_ids evt ns_map = [] /\ get_group_ids evt ns_map = []
  /\ get_resource_ids evt ns_map = [] /\ get_ven_ids evt ns_map = [].

(** An event that names the party, the group, the resource or the VEN of
    the handler. *)
Definition targets_me (self : EventHandler) (evt : Element) : Prop :=
  party_id self ∈ get_party_ids evt (ns_map self)
  \/ group_id self ∈ get_group_ids evt (ns_map self)
  \/ resource_id self ∈ get_resource_ids evt (ns_map self)
  \/ Some (ven_id self) ∈ get_ven_ids evt (ns_map self).

(** The signal definitions of an event and the intervals of a signal, in
    document order: the elements the two loops of [get_signals] run over. *)
Definition event_signals (evt : Element) (ns_map : nsmap) : list Element :=
  iterfind evt [child ("ei", "eiEventSignals"); child ("ei", "eiEventSignal")]
    ns_map.

Definition signal_intervals (signal : Element) (ns_map : nsmap) : list Element :=
  iterfind signal [child ("strm", "intervals"); child ("ei", "interval")] ns_map.

(** A signal definition named "simple" whose type is one of the four
    valid ones. *)
Definition qualifies (ns_map : nsmap) (signal : Element) : Prop :=
  findtext signal [child ("ei", "signalName")] ns_map = Some "simple"
  /\ exists t, findtext signal [child ("ei", "signalType")] ns_map = Some t
               /\ t ∈ ["level"; "price"; "delta"; "setpoint"].

(** Modelled on the words of the spec: the four tests in order, stopping at
    the first that fails. *)
Definition first_failure_status (self : EventHandler) (evt : Element)
    (old_mod_num : option Z) (e_mod_num : Z) (e_market_context : pystr)
  : string * string :=
  if is_older old_mod_num e_mod_num then ("optOut", "403")
  else if negb (check_target_info self evt) then ("optOut", "403")
  else if bool_decide (get_signals evt (ns_map self) = None) then ("optOut", "403")
  else if market_context_mismatch self e_market_context then ("optOut", "405")
  else ("optIn", "200").

(** The stored records are filed under their own id, and their modification
    number is the one of their row. *)
Definition store_wf (ns_map : nsmap) (db : database.DBHandler) : Prop :=
  map_Forall
    (fun k row =>
       get_event_id (database.raw_xml row) ns_map = k
       /\ get_mod_number (database.raw_xml row) ns_map = Ok (database.mod_num row))
    db.

(** An [oadr:oadrEvent] the loop can handle: it has an [ei:eiEvent] with a
    modification number, and a start to move when a tolerance is given. *)
Definition processable (ns_map : nsmap) (oadr_event : Element) : bool :=
  match find oadr_event [child ("ei", "eiEvent")] ns_map with
  | Some evt =>
      match get_mod_number evt ns_map with
      | Ok _ =>
          let start_offset := get_start_before_after evt ns_map in
          negb (truthy start_offset.1 || truthy start_offset.2)
          || bool_decide (is_Some (find evt dtstart_path ns_map))
      | Raise _ => false
      end
  | None => false
  end.

(** The event ids a list of [oadr:oadrEvent]s names. *)
Definition event_ids (ns_map : nsmap) (events : list Element) : list pystr :=
  flat_map (fun oadr_event =>
              match find oadr_event [child ("ei", "eiEvent")] ns_map with
              | Some evt => [get_event_id evt ns_map]
              | None => []
              end) events.

(** What holds of the loop state all along, [db0] being the database the
    loop started from. *)
Record loop_inv (self : EventHandler) (db0 : database.DBHandler)
    (st : loop_state) : Prop := {
  inv_wf : store_wf (ns_map self) (st_db st);
  inv_other : forall k, k ∉ all_events st -> st_db st !! k = db0 !! k;
  inv_seen : forall k, k ∈ all_events st -> is_Some (st_db st !! k);
  inv_updated : forall k evt,
      updated_events st !! k = Some evt -> get_event (st_db st) k = Some evt }.

(** The [oadr:oadrEvent] elements of a payload, its [ei:vtnID] and its
    [pyld:requestID], as [handle_payload] reads them. *)
Definition payload_events (self : EventHandler) (payload : Element)
  : list Element :=
  iterfind payload [child ("oadr", "oadrEvent")] (ns_map self).

Definition payload_vtn_id (self : EventHandler) (payload : Element) : pystr :=
  findtext payload [child ("ei", "vtnID")] (ns_map self).

Definition payload_request_id (self : EventHandler) (payload : Element) : pystr :=
  findtext payload [child ("pyld", "requestID")] (ns_map self).

(** ** Sample payloads *)

Module Samples.

(** A scheduler that leaves every start where it is. *)
#[global] Instance no_jitter : Schedule := {|
  datetime := pystr;
  str_to_datetime := fun s => s;
  dttm_to_str := default "";
  random_offset := fun start _ _ => start |}.

Definition ei_ (name : string) (x : pystr) (cs : list Element) : Element :=
  Elem (EI_XMLNS_A, name) x cs.

Definition xcal_ (name : string) (x : pystr) (cs : list Element) : Element :=
  Elem (XCAL_XMLNS_A, name) x cs.

Definition interval (duration uid value : string) : Element :=
  ei_ "interval" None
    [xcal_ "duration" None [xcal_ "duration" (Some duration) []];
     xcal_ "uid" None [xcal_ "text" (Some uid) []];
     ei_ "signalPayload" None
       [ei_ "payloadFloat" None [ei_ "value" (Some value) []]]].

Definition signal (name type : string) (intervals : list Element) : Element :=
  ei_ "eiEventSignal" None
    [Elem (STRM_XMLNS_A, "intervals") None intervals;
     ei_ "signalName" (Some name) [];
     ei_ "signalType" (Some type) []].

Definition descriptor (fields : list Element) (context : string) : Element :=
  ei_ "eventDescriptor" None
    (fields
       ++ [ei_ "eiMarketContext" None
             [Elem (EMIX_XMLNS_A, "marketContext") (Some context) []]]).

(** An [ei:eiEvent] with the given id, modification number, market
    context, signals and targets. *)
Definition ei_event (id number context : string)
    (signals targets : list Element) : Element :=
  ei_ "eiEvent" None
    [descriptor
       [ei_ "eventID" (Some id) []; ei_ "modificationNumber" (Some number) []]
       context;
     ei_ "eiEventSignals" None signals;
     ei_ "eiTarget" None targets].

Definition oadr_event (response_required : string) (evt : Element) : Element :=
  Elem (OADR_XMLNS_A, "oadrEvent") None
    [evt;
     Elem (OADR_XMLNS_A, "oadrResponseRequired") (Some response_required) []].

Definition distribute (request vtn : string) (events : list Element) : Element :=
  Elem (OADR_XMLNS_A, "oadrDistributeEvent") None
    (Elem (PYLD_XMLNS_A, "requestID") (Some request) []
       :: ei_ "vtnID" (Some vtn) [] :: events).

Definition price : Element := signal "simple" "price" [interval "PT1H" "0" "1.0"].

(** The handler of the scenario of the spec: market context mkt1, no
    callback; and the same with a callback. *)
Definition ven1 : EventHandler :=
  EventHandler_init "ven1" None (Some "mkt1") None None None "2.0a" None.

Definition ven1_cb : EventHandler :=
  EventHandler_init "ven1" None (Some "mkt1") None None None "2.0a"
    (Some (fun _ _ => Ok ())).

Definition E1 : Element := ei_event "E1" "1" "mkt1" [price] [].
Definition E2 : Element := ei_event "E2" "4" "mkt1" [price] [].

(** E1, aimed at another group and in another market context. *)
Definition E1_elsewhere : Element :=
  ei_event "E1" "1" "mkt2" [price] [ei_ "groupID" (Some "G2") []].

(** E1 with a signal that is not a simple one. *)
Definition E1_other : Element :=
  ei_event "E1" "1" "mkt1" [signal "other" "price" [interval "PT1H" "0" "1.0"]] [].

(** E1 with a simple signal that has no interval. *)
Definition E1_hollow : Element :=
  ei_event "E1" "1" "mkt1" [signal "simple" "level" []] [].

(** E1 aimed at group G1. *)
Definition E1_group : Element :=
  ei_event "E1" "1" "mkt1" [price] [ei_ "groupID" (Some "G1") []].

(** An event without a modification number. *)
Definition E0_unnumbered : Element :=
  ei_ "eiEvent" None
    [descriptor [ei_ "eventID" (Some "E0") []] "mkt1";
     ei_ "eiEventSignals" None [price]].

(** A store that holds E1 and E2, and one that holds E1 alone. *)
Definition store1 : database.DBHandler :=
  database.update_event ∅ (Some "E1") 1 E1 (Some "vtn1").

Definition store12 : database.DBHandler :=
  database.update_event store1 (Some "E2") 4 E2 (Some "vtn1").

Definition start (db : database.DBHandler) : loop_state := LoopState [] [] ∅ db.

End Samples.

(** ** Further notions *)

(** *** For [int] after [str] *)

(** The number a sequence of decimal digits writes, most significant digit
    first, after the digits that gave [acc]. *)
Fixpoint uint_value (acc : Z) (d : Decimal.uint) : Z :=
  match d with
  | Decimal.Nil => acc
  | Decimal.D0 d => uint_value (10 * acc + 0) d
  | Decimal.D1 d => uint_value (10 * acc + 1) d
  | Decimal.D2 d => uint_value (10 * acc + 2) d
  | Decimal.D3 d => uint_value (10 * acc + 3) d
  | Decimal.D4 d => uint_value (10 * acc + 4) d
  | Decimal.D5 d => uint_value (10 * acc + 5) d
  | Decimal.D6 d => uint_value (10 * acc + 6) d
  | Decimal.D7 d => uint_value (10 * acc + 7) d
  | Decimal.D8 d => uint_value (10 * acc + 8) d
  | Decimal.D9 d => uint_value (10 * acc + 9) d
  end.

(** A string without white space. *)
Fixpoint no_space (s : string) : bool :=
  match s with
  | EmptyString => true
  | String a s' => negb (is_space a) && no_space s'
  end.

(** *** For the two profiles *)

(** The prefix of a step, and the paths whose prefixes the two maps bind
    alike. *)
Definition step_prefix (st : step) : string :=
  match st with
  | child q | descendant q => q.1
  end.

Definition same_in_both_profiles (path : list step) : bool :=
  forallb (fun st => bool_decide (NS_A !! step_prefix st = NS_B !! step_prefix st))
    path.

(** *** For the replies and the loop *)

(** The event id and the request id of a reply tuple. *)
Definition decision_event_id (d : decision) : pystr := d.1.1.1.1.
Definition decision_request_id (d : decision) : pystr := d.1.1.2.

(** More of what holds of the loop state all along: [done] are the
    [oadr:oadrEvent]s handled so far, [db0] is the database the loop started
    from, [requestID] the request id of the payload. *)
Record loop_facts (self : EventHandler) (requestID : pystr)
    (db0 : database.DBHandler) (done : list Element) (st : loop_state)
  : Prop := {
  facts_all : all_events st = event_ids (ns_map self) done;
  facts_updated_seen : forall k,
      is_Some (updated_events st !! k) -> k ∈ all_events st;
  facts_replies :
    decision_event_id <$> reply_events st `sublist_of` all_events st;
  facts_request : Forall (fun d => decision_request_id d = requestID)
                    (reply_events st);
  facts_kept : forall k row,
      db0 !! k = Some row ->
      exists row', st_db st !! k = Some row'
                   /\ database.mod_num row <= database.mod_num row';
  facts_newer : forall k evt row,
      updated_events st !! k = Some evt -> db0 !! k = Some row ->
      exists m, get_mod_number evt (ns_map self) = Ok m
                /\ database.mod_num row < m;
  facts_done : forall oadr_event evt m,
      oadr_event ∈ done ->
      find oadr_event [child ("ei", "eiEvent")] (ns_map self) = Some evt ->
      get_mod_number evt (ns_map self) = Ok m ->
      exists row, st_db st !! get_event_id evt (ns_map self) = Some row
                  /\ m <= database.mod_num row }.

(** [','.join(l)] *)
Fixpoint join_comma (l : list string) : string :=
  match l with
  | [] => EmptyString
  | [s] => s
  | s :: l' => s +:+ String "," (join_comma l')
  end.

(** A string without a comma. *)
Fixpoint no_comma (s : string) : bool :=
  match s with
  | EmptyString => true
  | String a s' => negb (bool_decide (a = ","%char)) && no_comma s'
  end.

(** The opt type and the status of a reply tuple, and the three pairs the
    four tests can leave. *)
Definition decision_answer (d : decision) : string * string := (d.1.2, d.2).

Definition answers : list (string * string) :=
  [("optIn", "200"); ("optOut", "403"); ("optOut", "405")].

(** *** For the created payload *)

(** One [ei:eventResponse] of the created payload: the body of the
    generator [responses] of [build_created_payload]. *)
Definition event_response (ei pyld : string) (d : decision) : result Element :=
  let '(e_id, mod_num, requestID, opt, status) := d in
  rc ← E_text ei "responseCode" (Some status);
  rid ← E_text pyld "requestID" requestID;
  eid ← E_text ei "eventID" e_id;
  mn ← E_text ei "modificationNumber" (Some (py_str mod_num));
  ot ← E_text ei "optType" (Some opt);
  mret (Elem (ei, "eventResponse") None
          [rc; rid; Elem (ei, "qualifiedEventID") None [eid; mn]; ot]).

(** Reading a created payload back, with the paths a VTN would use: its
    [ei:eventResponse] elements, and the five fields of one of them. *)
Definition event_responses (payload : Element) (ns_map : nsmap) : list Element :=
  iterfind payload
    [child ("pyld", "eiCreatedEvent"); child ("ei", "eventResponses");
     child ("ei", "eventResponse")] ns_map.

Definition read_event_response (ns_map : nsmap) (r : Element)
  : pystr * result Z * pystr * pystr * pystr :=
  (findtext r [child ("ei", "qualifiedEventID"); child ("ei", "eventID")] ns_map,
   py_int (findtext r [child ("ei", "qualifiedEventID");
                       child ("ei", "modificationNumber")] ns_map),
   findtext r [child ("pyld", "requestID")] ns_map,
   findtext r [child ("ei", "optType")] ns_map,
   findtext r [child ("ei", "responseCode")] ns_map).

(** A reply tuple that can be written: it has an event id and a request
    id. *)
Definition writable (d : decision) : Prop :=
  is_Some (decision_event_id d) /\ is_Some (decision_request_id d).

(** ** More sample payloads *)

Module MoreSamples.
Import Samples.

(** A scheduler that moves every start by the tolerance after it. *)
Definition late_start : Schedule := {|
datetime := string;
str_to_datetime := default "";
dttm_to_str := fun t => t;
random_offset := fun start _ after => start +:+ "+" +:+ default "" after |}.

(** The handler of the scenario with a list of two VTNs. *)
Definition ven1_listed : EventHandler :=
EventHandler_init "ven1" (Some "vtn1,vtn2") (Some "mkt1") None None None
  "2.0a" None.

(** The active period of an event: a start, and a tolerance after it. *)
Definition active_period (start startafter : string) : Element :=
ei_ "eiActivePeriod" None
  [xcal_ "properties" None
     [xcal_ "dtstart" None [xcal_ "date-time" (Some start) []];
      xcal_ "tolerance" None
        [xcal_ "tolerate" None [xcal_ "startafter" (Some startafter) []]]]].

(** E3, with a start that may be moved by up to five minutes. *)
Definition E3_tolerant : Element :=
ei_ "eiEvent" None
  [descriptor
     [ei_ "eventID" (Some "E3") []; ei_ "modificationNumber" (Some "2") []]
     "mkt1";
   active_period "2013-05-01T10:00:00Z" "PT5M";
   ei_ "eiEventSignals" None [price];
   ei_ "eiTarget" None []].

(** A payload without a request id. *)
Definition distribute_anonymous (vtn : string) (events : list Element) : Element :=
Elem (OADR_XMLNS_A, "oadrDistributeEvent") None
  (ei_ "vtnID" (Some vtn) [] :: events).

(** E1 with the number 2, and a payload with E1 twice. *)
Definition E1_second : Element := ei_event "E1" "2" "mkt1" [price] [].

Definition twice : Element :=
distribute "r1" "vtn1" [oadr_event "always" E1; oadr_event "never" E1_second].

End MoreSamples.

(** * Properties *)

Import Samples.

(** ** Facts on element paths *)

Lemma tag_is_tag ns_map q e e' :
  tag e' = tag e -> tag_is ns_map q e' = tag_is ns_map q e.
Proof. unfold tag_is. intros ->. reflexivity. Qed.

Lemma tag_is_exclusive ns_map q q' e :
  q.2 <> q'.2 -> tag_is ns_map q e = true -> tag_is ns_map q' e = false.
Proof.
  unfold tag_is. intros Hne Hq.
  destruct (ns_map !! q.1) as [u|]; [|discriminate].
  destruct (ns_map !! q'.1) as [u'|]; [|reflexivity].
  apply bool_decide_eq_true in Hq. apply bool_decide_eq_false.
  rewrite Hq. intros [= _ ?]. contradiction.
Qed.

Lemma set_text_first_tag ns_map names s e e' :
  set_text_first ns_map names s e = Some e' -> tag e' = tag e.
Proof.
  destruct names as [|q names']; simpl.
  - intros [= <-]. reflexivity.
  - destruct (update_first_child _ _ _); simpl; [|discriminate].
    intros [= <-]. reflexivity.
Qed.

Lemma update_first_child_filter test test' f cs cs' :
  (forall c, test c = true -> test' c = false) ->
  (forall c c', f c = Some c' -> test' c' = test' c) ->
  update_first_child test f cs = Some cs' ->
  List.filter test' cs' = List.filter test' cs.
Proof.
  intros Hex Hf. revert cs'.
  induction cs as [|c cs IH]; simpl; intros cs'; [discriminate|].
  destruct (test c) eqn:Ht.
  - destruct (f c) as [c'|] eqn:Hfc.
    + intros [= <-]. simpl.
      rewrite (Hf _ _ Hfc), (Hex _ Ht). reflexivity.
    + destruct (update_first_child test f cs); simpl; [|discriminate].
      intros [= <-]. simpl. rewrite (IH _ eq_refl). reflexivity.
  - destruct (update_first_child test f cs); simpl; [|discriminate].
    intros [= <-]. simpl. rewrite (IH _ eq_refl). reflexivity.
Qed.

(** Setting a text below one child leaves what is found below a child of
    another name. *)
Lemma iterfind_set_text_first ns_map q names s q' path' e e' :
  q.2 <> q'.2 ->
  set_text_first ns_map (q :: names) s e = Some e' ->
  iterfind e' (child q' :: path') ns_map = iterfind e (child q' :: path') ns_map.
Proof.
  intros Hne. simpl.
  destruct (update_first_child _ _ _) as [cs|] eqn:Hcs; simpl; [|discriminate].
  intros [= <-]. simpl.
  erewrite update_first_child_filter; [reflexivity| | |exact Hcs].
  - intros c. apply tag_is_exclusive, Hne.
  - intros c c' Hc. apply tag_is_tag. eapply set_text_first_tag, Hc.
Qed.

Lemma findtext_set_text_first ns_map q names s q' path' e e' :
  q.2 <> q'.2 ->
  set_text_first ns_map (q :: names) s e = Some e' ->
  findtext e' (child q' :: path') ns_map = findtext e (child q' :: path') ns_map.
Proof.
  intros Hne He. unfold findtext, find.
  rewrite (iterfind_set_text_first _ _ _ _ _ _ _ _ Hne He). reflexivity.
Qed.

Lemma update_first_child_is_Some test f (g : Element -> list Element) cs :
  (forall c, is_Some (head (g c)) -> is_Some (f c)) ->
  is_Some (head (flat_map g (List.filter test cs))) ->
  is_Some (update_first_child test f cs).
Proof.
  intros Hf. induction cs as [|c cs IH]; simpl.
  - intros [? [=]].
  - destruct (test c); simpl.
    + destruct (f c) as [c'|] eqn:Hfc; [eauto|].
      destruct (g c) as [|y ys] eqn:Hg; simpl.
      * intros Hs. destruct (IH Hs) as [cs' ->]. simpl. eauto.
      * intros _. destruct (Hf c) as [? ?]; [rewrite Hg; simpl; eauto|congruence].
    + intros Hs. destruct (IH Hs) as [cs' ->]. simpl. eauto.
Qed.

(** The assignment goes through whenever [find] has a match. *)
Lemma set_text_first_is_Some ns_map names s e :
  is_Some (find e (child <$> names) ns_map) ->
  is_Some (set_text_first ns_map names s e).
Proof.
  revert e. induction names as [|q names IH]; intros e; [simpl; eauto|].
  rewrite fmap_cons. unfold find. cbn [iterfind select set_text_first].
  intros Hs.
  destruct (update_first_child_is_Some (tag_is ns_map q)
              (set_text_first ns_map names s)
              (fun c => iterfind c (child <$> names) ns_map) (children e))
    as [cs ->]; [exact IH|exact Hs|].
  simpl. eauto.
Qed.

Section handler_facts.
Context `{Schedule}.

Lemma randomize_start_findtext evt ns_map evt' q path :
  q.2 <> "eiActivePeriod" ->
  randomize_start evt ns_map = Ok evt' ->
  findtext evt' (child q :: path) ns_map = findtext evt (child q :: path) ns_map.
Proof.
  intros Hq. unfold randomize_start, set_active_period_start.
  destruct (_ || _); [|intros [= <-]; reflexivity].
  destruct (set_text_first _ _ _ _) as [e'|] eqn:He; [|discriminate].
  intros [= <-]. eapply findtext_set_text_first; [|exact He].
  simpl. congruence.
Qed.

Lemma randomize_start_id evt ns_map evt' :
  randomize_start evt ns_map = Ok evt' ->
  get_event_id evt' ns_map = get_event_id evt ns_map.
Proof. apply randomize_start_findtext. discriminate. Qed.

Lemma randomize_start_mod evt ns_map evt' :
  randomize_start evt ns_map = Ok evt' ->
  get_mod_number evt' ns_map = get_mod_number evt ns_map.
Proof.
  intros He. unfold get_mod_number.
  erewrite randomize_start_findtext; [reflexivity|discriminate|exact He].
Qed.

Lemma randomize_start_ok evt ns_map :
  (truthy (get_start_before_after evt ns_map).1
   || truthy (get_start_before_after evt ns_map).2 = true ->
   is_Some (find evt dtstart_path ns_map)) ->
  exists evt', randomize_start evt ns_map = Ok evt'.
Proof.
  unfold randomize_start, set_active_period_start.
  destruct (_ || _); [|eauto].
  intros Hs.
  destruct (set_text_first_is_Some ns_map dtstart_names
              (dttm_to_str
                 (random_offset (get_active_period_start evt ns_map)
                    (get_start_before_after evt ns_map).1
                    (get_start_before_after evt ns_map).2)) evt) as [e' ->];
    eauto.
Qed.

(** One turn of the loop, once the incoming event, its number and the
    stored number are known. *)
Lemma handle_event_eq self requestID vtnID st oadr_event evt m om :
  find oadr_event [child ("ei", "eiEvent")] (ns_map self) = Some evt ->
  get_mod_number evt (ns_map self) = Ok m ->
  stored_mod_number (st_db st) (get_event_id evt (ns_map self)) (ns_map self)
    = Ok om ->
  handle_event self requestID vtnID st oadr_event =
    let e_id := get_event_id evt (ns_map self) in
    let response_required :=
      findtext oadr_event [child ("oadr", "oadrResponseRequired")] (ns_map self) in
    let d := opt_status self evt om m (get_market_context evt (ns_map self)) in
    let replies :=
      if reply_wanted om m response_required
      then (reply_events st ++ [(e_id, m, requestID, d.1, d.2)])%list
      else reply_events st in
    if is_newer om m then
      match randomize_start evt (ns_map self) with
      | Ok evt' =>
          Ok (LoopState replies (all_events st ++ [e_id])%list
                (<[e_id := evt']> (updated_events st))
                (database.update_event (st_db st) e_id m evt' vtnID))
      | Raise e => Raise e
      end
    else
      Ok (LoopState replies (all_events st ++ [e_id])%list
            (updated_events st) (st_db st)).
Proof.
  intros Hevt Hm Hom. unfold handle_event.
  rewrite Hevt, Hm. simpl. rewrite Hom. simpl.
  destruct (opt_status _ _ _ _ _) as [opt status]. simpl.
  destruct (is_newer om m); [|reflexivity].
  destruct (randomize_start evt (ns_map self)) as [evt'|e] eqn:Hr; simpl;
    [|reflexivity].
  unfold update_event. rewrite (randomize_start_mod _ _ _ Hr), Hm. reflexivity.
Qed.

Lemma handle_event_Ok_inv self requestID vtnID st oadr_event st' :
  handle_event self requestID vtnID st oadr_event = Ok st' ->
  exists evt m om,
    find oadr_event [child ("ei", "eiEvent")] (ns_map self) = Some evt
    /\ get_mod_number evt (ns_map self) = Ok m
    /\ stored_mod_number (st_db st) (get_event_id evt (ns_map self))
         (ns_map self) = Ok om.
Proof.
  unfold handle_event.
  destruct (find oadr_event _ _) as [evt|]; [|discriminate].
  destruct (get_mod_number evt _) as [m|] eqn:Hm; simpl; [|discriminate].
  destruct (stored_mod_number _ _ _) as [om|] eqn:Hom; simpl; [|discriminate].
  intros _. exists evt, m, om. auto.
Qed.

End handler_facts.

Lemma nonempty_py_in x l : nonempty l && py_in x l = py_in x l.
Proof.
  destruct l; [|reflexivity]. simpl. symmetry.
  apply bool_decide_eq_false. apply not_elem_of_nil.
Qed.

Lemma check_target_info_eq self evt :
  check_target_info self evt =
    if nonempty (get_party_ids evt (ns_map self))
       || nonempty (get_group_ids evt (ns_map self))
       || nonempty (get_resource_ids evt (ns_map self))
       || nonempty (get_ven_ids evt (ns_map self))
    then py_in (party_id self) (get_party_ids evt (ns_map self))
         || py_in (group_id self) (get_group_ids evt (ns_map self))
         || py_in (resource_id self) (get_resource_ids evt (ns_map self))
         || py_in (Some (ven_id self)) (get_ven_ids evt (ns_map self))
    else true.
Proof.
  unfold check_target_info. rewrite !nonempty_py_in.
  destruct (_ || _ || _ || _); [|reflexivity].
  destruct (py_in (party_id self) _), (py_in (group_id self) _),
    (py_in (resource_id self) _), (py_in (Some (ven_id self)) _); reflexivity.
Qed.

(** C6. Targeting check: an event whose four target lists are all empty is
    accepted whatever the local identity; otherwise it is accepted exactly
    when the local party id is among its party ids, or the local group id
    among its group ids, or the local resource id among its resource ids, or
    the local VEN id among its VEN ids. *)
Theorem check_target_info_any_category self evt :
  (untargeted (ns_map self) evt -> check_target_info self evt = true)
  /\ (~ untargeted (ns_map self) evt ->
      (check_target_info self evt = true <-> targets_me self evt)).
Proof.
  rewrite check_target_info_eq. unfold untargeted, targets_me, py_in. split.
  - intros (-> & -> & -> & ->). reflexivity.
  - intros Hne.
    destruct (_ || _ || _ || _) eqn:Hany.
    + rewrite !orb_true_iff, !bool_decide_eq_true. tauto.
    + exfalso. apply Hne.
      destruct (get_party_ids _ _), (get_group_ids _ _),
        (get_resource_ids _ _), (get_ven_ids _ _); try discriminate; auto.
Qed.

Lemma py_in_strs_spec x l : py_in_strs x l = true <-> exists t, x = Some t /\ t ∈ l.
Proof.
  unfold py_in_strs, py_in. rewrite bool_decide_eq_true, list_elem_of_fmap.
  split; intros (t & ? & ?); eauto.
Qed.

Lemma is_simple_signal_spec ns_map signal :
  is_simple_signal ns_map signal = true <-> qualifies ns_map signal.
Proof.
  unfold is_simple_signal, qualifies.
  rewrite andb_true_iff, bool_decide_eq_true, py_in_strs_spec. reflexivity.
Qed.

Lemma foldl_last_match {A} (p : A -> bool) (l : list A) (acc : option A) :
  foldl (fun acc x => if p x then Some x else acc) acc l =
    match last (List.filter p l) with
    | Some x => Some x
    | None => acc
    end.
Proof.
  revert acc. induction l as [|x l IH]; intros acc; [reflexivity|].
  cbn [foldl List.filter]. rewrite IH. destruct (p x); [|reflexivity].
  rewrite last_cons. destruct (last (List.filter p l)); reflexivity.
Qed.

Lemma simple_signal_last evt ns_map :
  simple_signal evt ns_map =
    last (List.filter (is_simple_signal ns_map) (event_signals evt ns_map)).
Proof.
  unfold simple_signal. rewrite foldl_last_match.
  unfold event_signals. destruct (last _); reflexivity.
Qed.

Lemma filter_nil_iff {A} (p : A -> bool) (l : list A) :
  List.filter p l = [] <-> forall x, x ∈ l -> p x = false.
Proof.
  induction l as [|x l IH]; simpl.
  - split; [intros _ y Hy; inversion Hy|reflexivity].
  - destruct (p x) eqn:Hp.
    + split; [discriminate|]. intros Hall.
      specialize (Hall x (list_elem_of_here _ _)). congruence.
    + rewrite IH. split.
      * intros Hall y Hy. apply elem_of_cons in Hy as [->|Hy]; auto.
      * intros Hall y Hy. apply Hall. by apply list_elem_of_further.
Qed.

Lemma simple_signal_None evt ns_map :
  simple_signal evt ns_map = None <->
  forall s, s ∈ event_signals evt ns_map -> ~ qualifies ns_map s.
Proof.
  rewrite simple_signal_last, last_None, filter_nil_iff.
  split; intros Hall s Hs.
  - rewrite <- is_simple_signal_spec, (Hall s Hs). discriminate.
  - specialize (Hall s Hs). rewrite <- is_simple_signal_spec in Hall.
    destruct (is_simple_signal ns_map s); congruence.
Qed.

Lemma simple_signal_Some evt ns_map before s after :
  event_signals evt ns_map = (before ++ s :: after)%list ->
  qualifies ns_map s ->
  (forall s', s' ∈ after -> ~ qualifies ns_map s') ->
  simple_signal evt ns_map = Some s.
Proof.
  intros Hsig Hs Hafter. rewrite simple_signal_last, Hsig.
  rewrite List.filter_app. simpl.
  apply is_simple_signal_spec in Hs. rewrite Hs.
  replace (List.filter (is_simple_signal ns_map) after) with (@nil Element).
  - apply last_snoc.
  - symmetry. apply filter_nil_iff. intros s' Hs'.
    specialize (Hafter s' Hs'). rewrite <- is_simple_signal_spec in Hafter.
    destruct (is_simple_signal ns_map s'); congruence.
Qed.

(** What the four tests leave in [opt] and [status]. *)
Lemma opt_status_eq self evt om m mc :
  opt_status self evt om m mc =
    if market_context_mismatch self mc then ("optOut", "405")
    else if is_older om m || negb (check_target_info self evt)
            || bool_decide (get_signals evt (ns_map self) = None)
         then ("optOut", "403")
         else ("optIn", "200").
Proof.
  unfold opt_status.
  destruct (is_older om m), (check_target_info self evt),
    (bool_decide (get_signals evt (ns_map self) = None)),
    (market_context_mismatch self mc); reflexivity.
Qed.

Section decisions.
Context `{Schedule}.

Lemma handle_event_reply self requestID vtnID st oadr_event st' evt m om :
  find oadr_event [child ("ei", "eiEvent")] (ns_map self) = Some evt ->
  get_mod_number evt (ns_map self) = Ok m ->
  stored_mod_number (st_db st) (get_event_id evt (ns_map self)) (ns_map self)
    = Ok om ->
  handle_event self requestID vtnID st oadr_event = Ok st' ->
  reply_events st' =
    let d := opt_status self evt om m (get_market_context evt (ns_map self)) in
    if reply_wanted om m
         (findtext oadr_event [child ("oadr", "oadrResponseRequired")]
            (ns_map self))
    then (reply_events st
            ++ [(get_event_id evt (ns_map self), m, requestID, d.1, d.2)])%list
    else reply_events st.
Proof.
  intros Hevt Hm Hom. rewrite (handle_event_eq _ _ _ _ _ _ _ _ Hevt Hm Hom).
  cbv zeta. destruct (is_newer om m).
  - destruct (randomize_start evt (ns_map self)); [|discriminate].
    intros [= <-]. reflexivity.
  - intros [= <-]. reflexivity.
Qed.

(** C3 (amended). For a response-eligible event all four tests are run,
    in the order version conflict, targeting, signal, market context, and
    each failing test overwrites the pair: a failing market-context test
    gives optOut/405 whatever came before, otherwise any failing earlier
    test gives optOut/403, and an event passing all four gets optIn/200. *)
Theorem decision_codes_last_failure self requestID vtnID st oadr_event st'
    evt m om :
  find oadr_event [child ("ei", "eiEvent")] (ns_map self) = Some evt ->
  get_mod_number evt (ns_map self) = Ok m ->
  stored_mod_number (st_db st) (get_event_id evt (ns_map self)) (ns_map self)
    = Ok om ->
  reply_wanted om m
    (findtext oadr_event [child ("oadr", "oadrResponseRequired")] (ns_map self))
    = true ->
  handle_event self requestID vtnID st oadr_event = Ok st' ->
  exists opt status,
    reply_events st' =
      (reply_events st
         ++ [(get_event_id evt (ns_map self), m, requestID, opt, status)])%list
    /\ (opt, status) =
         if market_context_mismatch self (get_market_context evt (ns_map self))
         then ("optOut", "405")
         else if is_older om m || negb (check_target_info self evt)
                 || bool_decide (get_signals evt (ns_map self) = None)
              then ("optOut", "403")
              else ("optIn", "200").
Proof.
  intros Hevt Hm Hom Hw Hst.
  rewrite (handle_event_reply _ _ _ _ _ _ _ _ _ Hevt Hm Hom Hst).
  cbv zeta. rewrite Hw.
  eexists _, _. split; [reflexivity|].
  rewrite <- opt_status_eq. symmetry. apply surjective_pairing.
Qed.

(** C7. Simple-signal selection and gating: the signals of an event are
    absent exactly when none of its signal definitions has the name
    "simple" and a type among level, price, delta, setpoint; the last
    qualifying definition in document order is the one whose intervals are
    taken; and when the signals are absent a response-eligible event is
    answered optOut/403 as soon as the market context passes, whether or
    not the targeting passes. *)
Theorem simple_signal_selection_and_gating self evt :
  (get_signals evt (ns_map self) = None <->
     forall s, s ∈ event_signals evt (ns_map self) -> ~ qualifies (ns_map self) s)
  /\ (forall before s after,
        event_signals evt (ns_map self) = (before ++ s :: after)%list ->
        qualifies (ns_map self) s ->
        (forall s', s' ∈ after -> ~ qualifies (ns_map self) s') ->
        get_signals evt (ns_map self) =
          Some (interval_tuple (ns_map self) <$> signal_intervals s (ns_map self)))
  /\ (get_signals evt (ns_map self) = None ->
      forall requestID vtnID st oadr_event st' m om,
        find oadr_event [child ("ei", "eiEvent")] (ns_map self) = Some evt ->
        get_mod_number evt (ns_map self) = Ok m ->
        stored_mod_number (st_db st) (get_event_id evt (ns_map self))
          (ns_map self) = Ok om ->
        reply_wanted om m
          (findtext oadr_event [child ("oadr", "oadrResponseRequired")]
             (ns_map self)) = true ->
        market_context_mismatch self (get_market_context evt (ns_map self))
          = false ->
        handle_event self requestID vtnID st oadr_event = Ok st' ->
        reply_events st' =
          (reply_events st
             ++ [(get_event_id evt (ns_map self), m, requestID,
                  "optOut", "403")])%list).
Proof.
  split; [|split].
  - rewrite <- simple_signal_None. unfold get_signals.
    destruct (simple_signal evt (ns_map self)); split; congruence.
  - intros before s after Hsig Hs Hafter. unfold get_signals.
    rewrite (simple_signal_Some _ _ _ _ _ Hsig Hs Hafter). reflexivity.
  - intros Hnone requestID vtnID st oadr_event st' m om Hevt Hm Hom Hw Hmc Hst.
    rewrite (handle_event_reply _ _ _ _ _ _ _ _ _ Hevt Hm Hom Hst).
    cbv zeta. rewrite Hw, opt_status_eq, Hmc, Hnone.
    rewrite bool_decide_eq_true_2, orb_true_r by reflexivity.
    reflexivity.
Qed.

(** C8 (amended). The signals of an event are either absent, and then the
    event is answered optOut (403, or 405 on a market-context mismatch),
    or the list of the interval tuples of the selected simple signal, one
    per interval and empty when that signal has no interval; an event with
    such a list, empty or not, passes the signal test: its answer is the
    one the three other tests give. *)
Theorem signals_absent_or_interval_list self evt :
  (get_signals evt (ns_map self) = None
   /\ forall om m mc,
        opt_status self evt om m mc =
          ("optOut", if market_context_mismatch self mc then "405" else "403"))
  \/ (exists s,
        simple_signal evt (ns_map self) = Some s
        /\ get_signals evt (ns_map self) =
             Some (interval_tuple (ns_map self)
                     <$> signal_intervals s (ns_map self))
        /\ forall om m mc,
             opt_status self evt om m mc =
               if market_context_mismatch self mc then ("optOut", "405")
               else if is_older om m || negb (check_target_info self evt)
                    then ("optOut", "403")
                    else ("optIn", "200")).
Proof.
  unfold get_signals.
  destruct (simple_signal evt (ns_map self)) as [s|] eqn:Hs.
  - right. exists s. split; [reflexivity|]. split; [reflexivity|].
    intros om m mc. rewrite opt_status_eq. unfold get_signals. rewrite Hs.
    rewrite bool_decide_eq_false_2 by discriminate.
    rewrite orb_false_r. reflexivity.
  - left. split; [reflexivity|].
    intros om m mc. rewrite opt_status_eq. unfold get_signals. rewrite Hs.
    rewrite bool_decide_eq_true_2, orb_true_r by reflexivity.
    destruct (market_context_mismatch self mc); reflexivity.
Qed.

End decisions.

Lemma stored_mod_number_Some db e_id ns_map old m_old :
  get_event db e_id = Some old ->
  get_mod_number old ns_map = Ok m_old ->
  stored_mod_number db e_id ns_map = Ok (Some m_old).
Proof. unfold stored_mod_number. intros -> ->. reflexivity. Qed.

Lemma stored_mod_number_inv db e_id ns_map om :
  stored_mod_number db e_id ns_map = Ok om ->
  match om with
  | None => get_event db e_id = None
  | Some m_old =>
      exists old, get_event db e_id = Some old
                  /\ get_mod_number old ns_map = Ok m_old
  end.
Proof.
  unfold stored_mod_number. destruct (get_event db e_id) as [old|].
  - destruct (get_mod_number old ns_map) as [m_old|] eqn:Hm; simpl; [|discriminate].
    intros [= <-]. eauto.
  - intros [= <-]. reflexivity.
Qed.

Section persistence.
Context `{Schedule}.

(** C1. Monotonic persistence: when the store holds, for the id of an
    incoming event, a record whose modification number is greater than or
    equal to the incoming one, handling the event leaves the database (and
    the updated events) as they were; and whenever handling an event
    changes the database, either no record was stored for its id or the
    incoming number is strictly greater than the stored one. *)
Theorem monotonic_persistence self requestID vtnID st oadr_event evt m :
  find oadr_event [child ("ei", "eiEvent")] (ns_map self) = Some evt ->
  get_mod_number evt (ns_map self) = Ok m ->
  (forall old m_old,
      get_event (st_db st) (get_event_id evt (ns_map self)) = Some old ->
      get_mod_number old (ns_map self) = Ok m_old ->
      m <= m_old ->
      exists st',
        handle_event self requestID vtnID st oadr_event = Ok st'
        /\ st_db st' = st_db st
        /\ updated_events st' = updated_events st)
  /\ (forall st',
        handle_event self requestID vtnID st oadr_event = Ok st' ->
        st_db st' <> st_db st ->
        get_event (st_db st) (get_event_id evt (ns_map self)) = None
        \/ exists old m_old,
             get_event (st_db st) (get_event_id evt (ns_map self)) = Some old
             /\ get_mod_number old (ns_map self) = Ok m_old
             /\ m_old < m).
Proof.
  intros Hevt Hm. split.
  - intros old m_old Hold Hmold Hle.
    rewrite (handle_event_eq _ _ _ _ _ _ _ _ Hevt Hm
               (stored_mod_number_Some _ _ _ _ _ Hold Hmold)).
    cbv zeta. unfold is_newer at 1.
    rewrite bool_decide_eq_false_2 by lia.
    eexists. split; [reflexivity|]. split; reflexivity.
  - intros st' Hst Hchanged.
    destruct (handle_event_Ok_inv _ _ _ _ _ _ Hst)
      as (evt0 & m0 & om & Hevt0 & Hm0 & Hom).
    rewrite Hevt in Hevt0. injection Hevt0 as <-.
    rewrite Hm in Hm0. injection Hm0 as <-.
    rewrite (handle_event_eq _ _ _ _ _ _ _ _ Hevt Hm Hom) in Hst.
    cbv zeta in Hst.
    pose proof (stored_mod_number_inv _ _ _ _ Hom) as Hinv.
    destruct om as [m_old|]; [|left; exact Hinv].
    destruct Hinv as (old & Hold & Hmold).
    unfold is_newer in Hst. case_bool_decide.
    + right. eauto.
    + injection Hst as <-. contradiction.
Qed.

(** C4 (amended). Stale or duplicate re-receipt with responseRequired
    "always": nothing is persisted and one decision is recorded.  When the
    incoming modification number is strictly less than the stored one the
    decision is optOut, with status 403, or 405 when the market-context
    test fails.  When the two numbers are identical the version test does
    not fire: the decision is the one the three other tests give, optIn/200
    when they all pass. *)
Theorem stale_or_duplicate_reply self requestID vtnID st oadr_event evt m
    old m_old :
  find oadr_event [child ("ei", "eiEvent")] (ns_map self) = Some evt ->
  get_mod_number evt (ns_map self) = Ok m ->
  get_event (st_db st) (get_event_id evt (ns_map self)) = Some old ->
  get_mod_number old (ns_map self) = Ok m_old ->
  m <= m_old ->
  findtext oadr_event [child ("oadr", "oadrResponseRequired")] (ns_map self)
    = Some "always" ->
  exists opt status,
    handle_event self requestID vtnID st oadr_event =
      Ok (LoopState
            (reply_events st
               ++ [(get_event_id evt (ns_map self), m, requestID, opt, status)])
            (all_events st ++ [get_event_id evt (ns_map self)])
            (updated_events st) (st_db st))
    /\ (m < m_old ->
        (opt, status) =
          ("optOut",
           if market_context_mismatch self (get_market_context evt (ns_map self))
           then "405" else "403"))
    /\ (m = m_old ->
        (opt, status) =
          if market_context_mismatch self (get_market_context evt (ns_map self))
          then ("optOut", "405")
          else if negb (check_target_info self evt)
                  || bool_decide (get_signals evt (ns_map self) = None)
               then ("optOut", "403")
               else ("optIn", "200")).
Proof.
  intros Hevt Hm Hold Hmold Hle Halways.
  rewrite (handle_event_eq _ _ _ _ _ _ _ _ Hevt Hm
             (stored_mod_number_Some _ _ _ _ _ Hold Hmold)).
  cbv zeta. rewrite Halways. unfold is_newer, reply_wanted, is_newer.
  rewrite (bool_decide_eq_false_2 (m_old < m)) by lia.
  rewrite (bool_decide_eq_true_2 (Some "always" = Some "always")) by reflexivity.
  rewrite (bool_decide_eq_false_2 (Some "always" = Some "never")) by discriminate.
  cbn [orb andb negb].
  eexists _, _. split; [reflexivity|].
  rewrite <- surjective_pairing, opt_status_eq. unfold is_older.
  split; intros Hcmp.
  - rewrite bool_decide_eq_true_2 by lia. cbn [orb].
    destruct (market_context_mismatch _ _); reflexivity.
  - rewrite bool_decide_eq_false_2 by lia. reflexivity.
Qed.

End persistence.

Lemma store_wf_lookup ns_map db k row :
  store_wf ns_map db -> db !! k = Some row ->
  get_event_id (database.raw_xml row) ns_map = k
  /\ get_mod_number (database.raw_xml row) ns_map = Ok (database.mod_num row).
Proof. intros Hwf Hk. exact (Hwf k row Hk). Qed.

Lemma stored_mod_number_wf ns_map db e_id :
  store_wf ns_map db -> exists om, stored_mod_number db e_id ns_map = Ok om.
Proof.
  intros Hwf. unfold stored_mod_number, get_event, database.get_event.
  destruct (db !! e_id) as [row|] eqn:Hrow; simpl; [|eauto].
  destruct (store_wf_lookup _ _ _ _ Hwf Hrow) as [_ ->]. simpl. eauto.
Qed.

Section loop.
Context `{Schedule}.

Lemma loop_inv_start self db :
  store_wf (ns_map self) db -> loop_inv self db (LoopState [] [] ∅ db).
Proof.
  intros Hwf. split; simpl; [exact Hwf|reflexivity| |].
  - intros k Hk. inversion Hk.
  - intros k evt. rewrite lookup_empty. discriminate.
Qed.

Lemma handle_event_step self requestID vtnID db0 st oadr_event st' :
  loop_inv self db0 st ->
  handle_event self requestID vtnID st oadr_event = Ok st' ->
  loop_inv self db0 st'.
Proof.
  intros [Hwf Hother Hseen Hupd] Hst.
  destruct (handle_event_Ok_inv _ _ _ _ _ _ Hst) as (evt & m & om & Hevt & Hm & Hom).
  rewrite (handle_event_eq _ _ _ _ _ _ _ _ Hevt Hm Hom) in Hst. cbv zeta in Hst.
  pose proof (stored_mod_number_inv _ _ _ _ Hom) as Hinv.
  destruct (is_newer om m) eqn:Hnew.
  - destruct (randomize_start evt (ns_map self)) as [evt'|] eqn:Hr; [|discriminate].
    injection Hst as <-. simpl.
    unfold database.update_event. split; simpl.
    + apply map_Forall_insert_2; [|exact Hwf]. simpl.
      rewrite (randomize_start_id _ _ _ Hr), (randomize_start_mod _ _ _ Hr).
      auto.
    + intros k Hk. rewrite not_elem_of_app, not_elem_of_cons in Hk.
      destruct Hk as [Hk [Hne _]].
      rewrite lookup_insert_ne by congruence. auto.
    + intros k Hk. rewrite elem_of_app, list_elem_of_singleton in Hk.
      destruct (decide (get_event_id evt (ns_map self) = k)) as [->|Hne].
      * rewrite lookup_insert_eq. eauto.
      * rewrite lookup_insert_ne by exact Hne. destruct Hk; [auto|congruence].
    + intros k e. unfold get_event, database.get_event.
      destruct (decide (get_event_id evt (ns_map self) = k)) as [->|Hne].
      * rewrite !lookup_insert_eq. simpl. congruence.
      * rewrite !lookup_insert_ne by exact Hne. apply Hupd.
  - injection Hst as <-. simpl.
    split; simpl; [exact Hwf| | |exact Hupd].
    + intros k Hk. rewrite not_elem_of_app in Hk. destruct Hk as [Hk _]. auto.
    + intros k Hk. rewrite elem_of_app, list_elem_of_singleton in Hk.
      destruct Hk as [Hk| ->]; [auto|].
      destruct om as [m_old|]; [|discriminate].
      destruct Hinv as (old & Hold & _).
      unfold get_event, database.get_event in Hold.
      destruct (st_db st !! get_event_id evt (ns_map self)); [eauto|discriminate].
Qed.

Lemma handle_event_processable self requestID vtnID st oadr_event :
  store_wf (ns_map self) (st_db st) ->
  processable (ns_map self) oadr_event = true ->
  exists st', handle_event self requestID vtnID st oadr_event = Ok st'.
Proof.
  intros Hwf. unfold processable.
  destruct (find oadr_event _ _) as [evt|] eqn:Hevt; [|discriminate].
  destruct (get_mod_number evt _) as [m|] eqn:Hm; [|discriminate].
  cbv zeta. intros Hstart.
  destruct (stored_mod_number_wf (ns_map self) (st_db st)
              (get_event_id evt (ns_map self)) Hwf) as [om Hom].
  rewrite (handle_event_eq _ _ _ _ _ _ _ _ Hevt Hm Hom). cbv zeta.
  destruct (is_newer om m); [|eauto].
  destruct (randomize_start_ok evt (ns_map self)) as [evt' ->]; [|eauto].
  intros Ht. rewrite Ht in Hstart. simpl in Hstart.
  apply bool_decide_eq_true in Hstart. exact Hstart.
Qed.

Lemma for_events_app self requestID vtnID events1 events2 st :
  for_events self requestID vtnID (events1 ++ events2) st =
    match for_events self requestID vtnID events1 st with
    | (st1, None) => for_events self requestID vtnID events2 st1
    | r => r
    end.
Proof.
  revert st. induction events1 as [|oe events1 IH]; intros st; simpl; [reflexivity|].
  destruct (handle_event self requestID vtnID st oe); [apply IH|reflexivity].
Qed.

Lemma handle_event_all_events self requestID vtnID st oadr_event st' :
  handle_event self requestID vtnID st oadr_event = Ok st' ->
  all_events st' = (all_events st ++ event_ids (ns_map self) [oadr_event])%list.
Proof.
  intros Hst.
  destruct (handle_event_Ok_inv _ _ _ _ _ _ Hst) as (evt & m & om & Hevt & Hm & Hom).
  rewrite (handle_event_eq _ _ _ _ _ _ _ _ Hevt Hm Hom) in Hst. cbv zeta in Hst.
  unfold event_ids. simpl. rewrite Hevt. simpl.
  destruct (is_newer om m).
  - destruct (randomize_start evt (ns_map self)); [|discriminate].
    injection Hst as <-. reflexivity.
  - injection Hst as <-. reflexivity.
Qed.

Lemma for_events_all_events self requestID vtnID events st st' :
  for_events self requestID vtnID events st = (st', None) ->
  all_events st' = (all_events st ++ event_ids (ns_map self) events)%list.
Proof.
  revert st. induction events as [|oe events IH]; intros st; simpl.
  - intros [= <-]. rewrite app_nil_r. reflexivity.
  - destruct (handle_event self requestID vtnID st oe) as [st1|] eqn:Hoe;
      [|discriminate].
    intros Hrest. rewrite (IH _ Hrest), (handle_event_all_events _ _ _ _ _ _ Hoe).
    rewrite <- app_assoc. f_equal.
    unfold event_ids. simpl. rewrite app_nil_r. reflexivity.
Qed.

Lemma for_events_inv_any self requestID vtnID db0 events st st' r :
  loop_inv self db0 st ->
  for_events self requestID vtnID events st = (st', r) ->
  loop_inv self db0 st'.
Proof.
  revert st. induction events as [|oe events IH]; intros st Hinv; simpl.
  - intros [= <- _]. exact Hinv.
  - destruct (handle_event self requestID vtnID st oe) as [st1|] eqn:Hoe.
    + apply IH. exact (handle_event_step _ _ _ _ _ _ _ Hinv Hoe).
    + intros [= <- _]. exact Hinv.
Qed.

Lemma for_events_processable self requestID vtnID db0 events st :
  loop_inv self db0 st ->
  forallb (processable (ns_map self)) events = true ->
  exists st', for_events self requestID vtnID events st = (st', None).
Proof.
  revert st. induction events as [|oe events IH]; intros st Hinv; simpl; [eauto|].
  rewrite andb_true_iff. intros [Hoe Hrest].
  destruct (handle_event_processable self requestID vtnID st oe
              (inv_wf _ _ _ Hinv) Hoe) as [st1 Hst1].
  rewrite Hst1.
  exact (IH _ (handle_event_step _ _ _ _ _ _ _ Hinv Hst1) Hrest).
Qed.

End loop.

(** ** Facts on the database and on the cancelled events *)

Lemma lookup_remove_events (db : database.DBHandler) (ids : list pystr) k :
  remove_events db ids !! k = if decide (k ∈ ids) then None else db !! k.
Proof.
  unfold remove_events, database.remove_events.
  induction ids as [|i ids IH]; cbn [foldr].
  - destruct (decide (k ∈ [])) as [Hin|_]; [inversion Hin|reflexivity].
  - destruct (decide (k ∈ i :: ids)) as [Hin|Hnin].
    + destruct (decide (i = k)) as [->|Hne]; [apply lookup_delete_eq|].
      rewrite lookup_delete_ne by exact Hne. rewrite IH.
      apply elem_of_cons in Hin as [->|Hin]; [contradiction|].
      destruct (decide (k ∈ ids)); [reflexivity|contradiction].
    + apply not_elem_of_cons in Hnin as [Hne Hnin].
      rewrite lookup_delete_ne by congruence. rewrite IH.
      destruct (decide (k ∈ ids)); [contradiction|reflexivity].
Qed.

Lemma elem_of_keys {A} (m : gmap pystr A) k :
  k ∈ (map_to_list m).*1 <-> is_Some (m !! k).
Proof.
  rewrite list_elem_of_fmap. split.
  - intros ([k' v] & -> & Hin). apply elem_of_map_to_list in Hin. simpl. eauto.
  - intros [v Hv]. exists (k, v). split; [reflexivity|].
    by apply elem_of_map_to_list.
Qed.

Lemma elem_of_get_active_events (db : database.DBHandler) evt :
  evt ∈ get_active_events db <->
  exists k row, db !! k = Some row /\ database.raw_xml row = evt.
Proof.
  unfold get_active_events, database.get_active_events.
  rewrite list_elem_of_fmap. split.
  - intros ([k e] & -> & Hin). apply elem_of_map_to_list in Hin.
    rewrite lookup_fmap in Hin. simpl.
    destruct (db !! k) as [row|] eqn:Hrow; simpl in Hin; [|discriminate].
    injection Hin as <-. eauto.
  - intros (k & row & Hrow & <-). exists (k, database.raw_xml row).
    split; [reflexivity|]. apply elem_of_map_to_list.
    rewrite lookup_fmap, Hrow. reflexivity.
Qed.

(** The loop that collects the cancelled events, from any start. *)
Lemma lookup_cancelled_fold (ns_map : nsmap) (db : database.DBHandler)
    (seen : list pystr) (evts : list Element) (acc : removed_map) (k : pystr) :
  foldl (fun remove_events evt =>
           let e_id := get_event_id evt ns_map in
           if py_in e_id seen then remove_events
           else <[e_id := get_event db e_id]> remove_events) acc evts !! k =
    if decide ((k ∉ seen) /\ k ∈ (fun evt => get_event_id evt ns_map) <$> evts)
    then Some (get_event db k)
    else acc !! k.
Proof.
  revert acc. induction evts as [|evt evts IH]; intros acc; cbn [foldl fmap list_fmap].
  - destruct (decide _) as [[_ Hin]|_]; [inversion Hin|reflexivity].
  - rewrite IH. clear IH. cbv zeta.
    destruct (decide ((k ∉ seen)
                      /\ k ∈ (fun evt => get_event_id evt ns_map) <$> evts))
      as [[Hk Hin]|Hno].
    + rewrite decide_True; [reflexivity|]. split; [exact Hk|].
      by apply list_elem_of_further.
    + unfold py_in. case_bool_decide as Hseen.
      * rewrite decide_False; [reflexivity|].
        intros (Hk & Hin). apply elem_of_cons in Hin as [->|Hin].
        -- contradiction.
        -- apply Hno. auto.
      * destruct (decide (get_event_id evt ns_map = k)) as [Hid|Hne].
        -- rewrite Hid, lookup_insert_eq, decide_True; [reflexivity|].
           split; [congruence|]. rewrite <- Hid. apply list_elem_of_here.
        -- rewrite lookup_insert_ne by exact Hne.
           rewrite decide_False; [reflexivity|].
           intros (Hk & Hin). apply elem_of_cons in Hin as [->|Hin].
           ++ congruence.
           ++ apply Hno. auto.
Qed.

Section cancelled.
Context `{Schedule}.

Lemma lookup_cancelled_events (self : EventHandler) (db : database.DBHandler)
    (seen : list pystr) (k : pystr) :
  store_wf (ns_map self) db ->
  cancelled_events self db seen !! k =
    if decide ((k ∉ seen) /\ is_Some (db !! k)) then Some (get_event db k)
    else None.
Proof.
  intros Hwf. unfold cancelled_events. rewrite lookup_cancelled_fold.
  rewrite lookup_empty.
  destruct (decide ((k ∉ seen) /\ is_Some (db !! k))) as [[Hk [row Hrow]]|Hno].
  - rewrite decide_True; [reflexivity|]. split; [exact Hk|].
    apply list_elem_of_fmap. exists (database.raw_xml row). split.
    + symmetry. apply (store_wf_lookup _ _ _ _ Hwf Hrow).
    + apply elem_of_get_active_events. eauto.
  - rewrite decide_False; [reflexivity|].
    intros (Hk & Hin). apply Hno. split; [exact Hk|].
    apply list_elem_of_fmap in Hin as (evt & -> & Hin).
    apply elem_of_get_active_events in Hin as (k' & row & Hrow & <-).
    destruct (store_wf_lookup _ _ _ _ Hwf Hrow) as [-> _]. eauto.
Qed.

(** No id the payload named is among the cancelled events, whatever the
    store. *)
Lemma cancelled_events_seen (self : EventHandler) (db : database.DBHandler)
    (seen : list pystr) (k : pystr) :
  k ∈ seen -> cancelled_events self db seen !! k = None.
Proof.
  intros Hk. unfold cancelled_events. rewrite lookup_cancelled_fold.
  rewrite decide_False; [apply lookup_empty|]. intros [Hnk _]. contradiction.
Qed.

End cancelled.

Section passes.
Context `{Schedule}.

(** A pass whose loop runs to its end. *)
Lemma handle_payload_completed self payload db st :
  vtn_rejected self (payload_vtn_id self payload) = false ->
  for_events self (payload_request_id self payload)
    (payload_vtn_id self payload) (payload_events self payload)
    (LoopState [] [] ∅ db) = (st, None) ->
  handle_payload self payload db =
    let removed := cancelled_events self (st_db st) (all_events st) in
    Pass
      match reply_events st with
      | [] => Ok None
      | _ => Some <$> build_created_payload self (reply_events st)
      end
      (remove_events (st_db st) (map_to_list removed).*1)
      match event_callback self with
      | Some _ => [(st_db st, updated_events st, removed)]
      | None => []
      end.
Proof.
  unfold payload_vtn_id, payload_request_id, payload_events, handle_payload.
  intros -> ->. reflexivity.
Qed.

(** A pass whose loop is stopped by an exception. *)
Lemma handle_payload_aborted self payload db st e :
  vtn_rejected self (payload_vtn_id self payload) = false ->
  for_events self (payload_request_id self payload)
    (payload_vtn_id self payload) (payload_events self payload)
    (LoopState [] [] ∅ db) = (st, Some e) ->
  handle_payload self payload db = Pass (Raise e) (st_db st) [].
Proof.
  unfold payload_vtn_id, payload_request_id, payload_events, handle_payload.
  intros -> ->. reflexivity.
Qed.

(** C2. Implicit cancellation: in a pass over a payload of an accepted
    VTN whose events can all be handled, every id the store held before
    the pass and that no event of the payload carries is in the removed
    set handed to the callback and is gone from the store after the pass;
    an id that some event of the payload carries is not in the removed
    set and is in the store after the pass. *)
Theorem implicit_cancellation self payload db :
  store_wf (ns_map self) db ->
  vtn_rejected self (payload_vtn_id self payload) = false ->
  forallb (processable (ns_map self)) (payload_events self payload) = true ->
  exists db_seen updated removed,
    callback_calls (handle_payload self payload db) =
      match event_callback self with
      | Some _ => [(db_seen, updated, removed)]
      | None => []
      end
    /\ forall k : pystr,
         (is_Some (db !! k) ->
          k ∉ event_ids (ns_map self) (payload_events self payload) ->
          removed !! k = Some (get_event db k)
          /\ db_after (handle_payload self payload db) !! k = None)
         /\ (k ∈ event_ids (ns_map self) (payload_events self payload) ->
             removed !! k = None
             /\ is_Some (db_after (handle_payload self payload db) !! k)).
Proof.
  intros Hwf Hvtn Hproc.
  destruct (for_events_processable self (payload_request_id self payload)
              (payload_vtn_id self payload) db _ _ (loop_inv_start self db Hwf) Hproc)
    as [st Hloop].
  destruct (for_events_inv_any _ _ _ _ _ _ _ _ (loop_inv_start self db Hwf) Hloop)
    as [Hwf' Hother Hseen Hupd].
  pose proof (for_events_all_events _ _ _ _ _ _ Hloop) as Hall.
  simpl in Hall.
  rewrite (handle_payload_completed _ _ _ _ Hvtn Hloop). cbv zeta. simpl.
  eexists _, _, _. split; [reflexivity|].
  intros k. rewrite <- Hall. split.
  - intros Hk Hnot.
    assert (cancelled_events self (st_db st) (all_events st) !! k
            = Some (get_event db k)) as Hrem.
    { rewrite (lookup_cancelled_events _ _ _ _ Hwf').
      rewrite decide_True by (rewrite (Hother k Hnot); auto).
      unfold get_event, database.get_event. rewrite (Hother k Hnot). reflexivity. }
    split; [exact Hrem|].
    rewrite lookup_remove_events. rewrite decide_True; [reflexivity|].
    apply elem_of_keys. rewrite Hrem. eauto.
  - intros Hin.
    pose proof (cancelled_events_seen self (st_db st) (all_events st) k Hin) as Hrem.
    split; [exact Hrem|].
    rewrite lookup_remove_events. rewrite decide_False; [auto|].
    rewrite elem_of_keys, Hrem. intros [? [=]].
Qed.

(** C5 (amended). The pass writes to the store itself: every accepted
    event is written while the loop runs.  The callback, when there is
    one, is called once, after the loop and before the removal: the store
    it finds holds every updated event it is handed and still holds every
    event of the removed set; the removal alone comes after the call. *)
Theorem callback_between_updates_and_removal self payload db :
  store_wf (ns_map self) db ->
  vtn_rejected self (payload_vtn_id self payload) = false ->
  forallb (processable (ns_map self)) (payload_events self payload) = true ->
  exists db_seen updated removed,
    callback_calls (handle_payload self payload db) =
      match event_callback self with
      | Some _ => [(db_seen, updated, removed)]
      | None => []
      end
    /\ (forall k evt, updated !! k = Some evt -> get_event db_seen k = Some evt)
    /\ (forall k, is_Some (removed !! k) -> is_Some (db_seen !! k))
    /\ db_after (handle_payload self payload db) =
         remove_events db_seen (map_to_list removed).*1.
Proof.
  intros Hwf Hvtn Hproc.
  destruct (for_events_processable self (payload_request_id self payload)
              (payload_vtn_id self payload) db _ _ (loop_inv_start self db Hwf) Hproc)
    as [st Hloop].
  destruct (for_events_inv_any _ _ _ _ _ _ _ _ (loop_inv_start self db Hwf) Hloop)
    as [Hwf' Hother Hseen Hupd].
  rewrite (handle_payload_completed _ _ _ _ Hvtn Hloop). cbv zeta. simpl.
  eexists _, _, _. split; [reflexivity|].
  split; [exact Hupd|]. split; [|reflexivity].
  intros k. rewrite (lookup_cancelled_events _ _ _ _ Hwf').
  destruct (decide _) as [[_ Hk]|_]; [auto|intros [? [=]]].
Qed.

(** C9 (amended). A record without a modification number that [int] can
    read is not skipped: reading the number raises ([TypeError] when it is
    missing, [ValueError] when it is not a number) and the exception ends
    the pass.  The events after it are not handled, nothing is removed,
    the callback is not called and no response is returned; what the
    events before it wrote to the store stays. *)
Theorem malformed_record_aborts self payload db before oadr_event after st
    evt e :
  vtn_rejected self (payload_vtn_id self payload) = false ->
  payload_events self payload = (before ++ oadr_event :: after)%list ->
  for_events self (payload_request_id self payload)
    (payload_vtn_id self payload) before (LoopState [] [] ∅ db) = (st, None) ->
  find oadr_event [child ("ei", "eiEvent")] (ns_map self) = Some evt ->
  get_mod_number evt (ns_map self) = Raise e ->
  handle_payload self payload db = Pass (Raise e) (st_db st) []
  /\ (e = TypeError \/ e = ValueError).
Proof.
  intros Hvtn Hevents Hbefore Hevt Hm. split.
  - apply handle_payload_aborted; [exact Hvtn|].
    rewrite Hevents, for_events_app, Hbefore. simpl.
    unfold handle_event. rewrite Hevt, Hm. reflexivity.
  - unfold get_mod_number, py_int in Hm.
    destruct (findtext evt _ _) as [s|]; [|injection Hm as <-; auto].
    destruct (parse_int s); [discriminate|injection Hm as <-; auto].
Qed.

End passes.

(** C10. Construction with a profile level other than "2.0a" and "2.0b"
    gives a handler all the same: its profile level is "2.0a" and its
    namespace map the 2.0a one, and it is the very handler that "2.0a"
    itself gives, so that every later extraction goes through the 2.0a
    map. *)
Theorem unknown_profile_level_is_20a (ven : string) (vtns contexts : pystr)
    (group resource party : pystr) (level : string)
    (callback : option (updated_map -> removed_map -> result unit)) :
  level <> "2.0a" ->
  level <> "2.0b" ->
  oadr_profile_level
    (EventHandler_init ven vtns contexts group resource party level callback)
    = "2.0a"
  /\ ns_map
       (EventHandler_init ven vtns contexts group resource party level callback)
     = NS_A
  /\ EventHandler_init ven vtns contexts group resource party level callback
     = EventHandler_init ven vtns contexts group resource party "2.0a" callback.
Proof.
  intros Ha Hb. unfold EventHandler_init, OADR_PROFILE_20A, OADR_PROFILE_20B.
  rewrite (bool_decide_eq_false_2 _ Ha), (bool_decide_eq_false_2 _ Hb).
  rewrite (bool_decide_eq_true_2 ("2.0a" = "2.0a")) by reflexivity.
  auto.
Qed.

Lemma store_wf_remove_events (ns_map : nsmap) (db : database.DBHandler)
    (ids : list pystr) :
  store_wf ns_map db -> store_wf ns_map (remove_events db ids).
Proof.
  intros Hwf. unfold remove_events, database.remove_events.
  induction ids as [|i ids IH]; simpl; [exact Hwf|].
  apply map_Forall_delete, IH.
Qed.

(** Every prefix the paths of this module use is bound by both maps. *)
Lemma prefixes_bound ns_map prefix :
  ns_map = NS_A \/ ns_map = NS_B ->
  prefix ∈ ["oadr"; "pyld"; "ei"; "emix"; "xcal"; "strm"] ->
  is_Some (ns_map !! prefix).
Proof.
  intros Hns Hin.
  repeat (apply elem_of_cons in Hin as [->|Hin];
          [destruct Hns as [->| ->]; vm_compute; eauto|]).
  inversion Hin.
Qed.

Lemma EventHandler_init_ns_map (ven : string) (vtns contexts : pystr)
    (group resource party : pystr) (level : string)
    (callback : option (updated_map -> removed_map -> result unit)) :
  ns_map (EventHandler_init ven vtns contexts group resource party level callback)
    = NS_A
  \/ ns_map (EventHandler_init ven vtns contexts group resource party level callback)
     = NS_B.
Proof.
  unfold EventHandler_init. repeat case_bool_decide; simpl; auto.
Qed.

Section survival.
Context `{Schedule}.

(** X17. The handler keeps the store well formed, however the pass ends:
    after a pass every record is still filed under its own id, with the
    modification number its row gives. *)
Theorem handle_payload_store_wf self payload db :
  store_wf (ns_map self) db ->
  store_wf (ns_map self) (db_after (handle_payload self payload db)).
Proof.
  intros Hwf. unfold handle_payload.
  destruct (vtn_rejected self _); [exact Hwf|].
  destruct (for_events _ _ _ _ _) as [st [e|]] eqn:Hloop; simpl.
  - apply (for_events_inv_any _ _ _ _ _ _ _ _ (loop_inv_start self db Hwf) Hloop).
  - apply store_wf_remove_events.
    apply (for_events_inv_any _ _ _ _ _ _ _ _ (loop_inv_start self db Hwf) Hloop).
Qed.

(** A stored record that no event of the list outdates stays as it is
    through the loop, however the loop ends. *)
Lemma for_events_keeps_not_newer self requestID vtnID events st st' r
    (k : pystr) row m_old :
  st_db st !! k = Some row ->
  get_mod_number (database.raw_xml row) (ns_map self) = Ok m_old ->
  (forall oadr_event evt m,
      oadr_event ∈ events ->
      find oadr_event [child ("ei", "eiEvent")] (ns_map self) = Some evt ->
      get_event_id evt (ns_map self) = k ->
      get_mod_number evt (ns_map self) = Ok m ->
      m <= m_old) ->
  for_events self requestID vtnID events st = (st', r) ->
  st_db st' !! k = Some row.
Proof.
  intros Hrow Hmold. revert st Hrow.
  induction events as [|oe events IH]; intros st Hrow Hle; simpl.
  - intros [= <- _]. exact Hrow.
  - destruct (handle_event self requestID vtnID st oe) as [st1|] eqn:Hoe.
    + apply IH.
      * destruct (handle_event_Ok_inv _ _ _ _ _ _ Hoe)
          as (evt & m & om & Hevt & Hm & Hom).
        rewrite (handle_event_eq _ _ _ _ _ _ _ _ Hevt Hm Hom) in Hoe.
        cbv zeta in Hoe.
        destruct (decide (get_event_id evt (ns_map self) = k)) as [Hid|Hne].
        -- assert (om = Some m_old) as ->.
           { unfold stored_mod_number, get_event, database.get_event in Hom.
             rewrite Hid, Hrow in Hom. simpl in Hom. rewrite Hmold in Hom.
             simpl in Hom. congruence. }
           specialize (Hle oe evt m (list_elem_of_here _ _) Hevt Hid Hm).
           unfold is_newer in Hoe.
           rewrite bool_decide_eq_false_2 in Hoe by lia.
           injection Hoe as <-. exact Hrow.
        -- destruct (is_newer om m).
           ++ destruct (randomize_start evt (ns_map self)); [|discriminate].
              injection Hoe as <-. simpl. unfold database.update_event.
              rewrite lookup_insert_ne by exact Hne. exact Hrow.
           ++ injection Hoe as <-. exact Hrow.
      * intros oe' evt m Hin. apply Hle. by apply list_elem_of_further.
    + intros [= <- _]. exact Hrow.
Qed.

(** X18. A stored record that no event of the payload outdates stays as
    it is through a whole pass, for an id the payload names: the record is
    not replaced by the loop and not removed after it. *)
Theorem handle_payload_keeps_not_newer self payload db (k : pystr) row m_old :
  db !! k = Some row ->
  get_mod_number (database.raw_xml row) (ns_map self) = Ok m_old ->
  k ∈ event_ids (ns_map self) (payload_events self payload) ->
  (forall oadr_event evt m,
      oadr_event ∈ payload_events self payload ->
      find oadr_event [child ("ei", "eiEvent")] (ns_map self) = Some evt ->
      get_event_id evt (ns_map self) = k ->
      get_mod_number evt (ns_map self) = Ok m ->
      m <= m_old) ->
  db_after (handle_payload self payload db) !! k = Some row.
Proof.
  intros Hrow Hmold Hin Hle. unfold handle_payload.
  destruct (vtn_rejected self _); [exact Hrow|].
  fold (payload_events self payload).
  destruct (for_events _ _ _ _ _) as [st r] eqn:Hloop.
  pose proof (for_events_keeps_not_newer _ _ _ _ (LoopState [] [] ∅ db) _ _
                k row m_old Hrow Hmold Hle Hloop) as Hkept.
  destruct r as [e|]; simpl; [exact Hkept|].
  rewrite lookup_remove_events. rewrite decide_False; [exact Hkept|].
  rewrite elem_of_keys, cancelled_events_seen; [intros [? [=]]|].
  rewrite (for_events_all_events _ _ _ _ _ _ Hloop). exact Hin.
Qed.

End survival.

(** ** The properties at the sample payloads *)

(** The sample store is well formed. *)
Lemma store_wf_store12 : store_wf NS_A store12.
Proof.
  unfold store12, store1, database.update_event.
  repeat (apply map_Forall_insert_2; [vm_compute; auto|]).
  apply map_Forall_empty.
Qed.

(** Implicit cancellation at a store that holds E1 and E2 and a payload
    that names E1 alone: E2 is handed to the callback as removed and is gone
    afterwards. *)
Lemma implicit_cancellation_witness :
  exists db_seen updated removed,
    callback_calls
      (handle_payload ven1_cb (distribute "r1" "vtn1" [oadr_event "always" E1])
         store12)
    = [(db_seen, updated, removed)]
    /\ removed !! Some "E2" = Some (Some E2)
    /\ db_after
         (handle_payload ven1_cb (distribute "r1" "vtn1" [oadr_event "always" E1])
            store12) !! Some "E2" = None.
Proof.
  destruct (implicit_cancellation ven1_cb
              (distribute "r1" "vtn1" [oadr_event "always" E1]) store12)
    as (db_seen & updated & removed & Hcall & Hk).
  - exact store_wf_store12.
  - vm_compute. reflexivity.
  - vm_compute. reflexivity.
  - exists db_seen, updated, removed. split; [exact Hcall|].
    apply (Hk (Some "E2")).
    + vm_compute. eauto.
    + vm_compute. intros Hin. apply list_elem_of_singleton in Hin. discriminate.
Defined.

(** Monotonic persistence at E1 received again with the number the store
    holds. *)
Lemma monotonic_persistence_witness :
  exists st',
    handle_event ven1 (Some "r2") (Some "vtn1") (start store1)
      (oadr_event "always" E1) = Ok st'
    /\ st_db st' = store1
    /\ updated_events st' = ∅.
Proof.
  apply (proj1 (monotonic_persistence ven1 (Some "r2") (Some "vtn1")
                  (start store1) (oadr_event "always" E1) E1 1
                  eq_refl eq_refl) E1 1).
  - vm_compute. reflexivity.
  - vm_compute. reflexivity.
  - lia.
Defined.

(** E1 aimed elsewhere fails the targeting test and the market-context
    test: the reply carries 405, where stopping at the first failure gives
    403. *)
Lemma first_failure_counterexample :
  (exists st',
      handle_event ven1 (Some "r1") (Some "vtn1") (start ∅)
        (oadr_event "always" E1_elsewhere) = Ok st'
      /\ reply_events st' = [(Some "E1", 1, Some "r1", "optOut", "405")])
  /\ first_failure_status ven1 E1_elsewhere None 1
       (get_market_context E1_elsewhere (ns_map ven1)) = ("optOut", "403").
Proof.
  split; [|vm_compute; reflexivity].
  eexists. split; vm_compute; reflexivity.
Defined.

(** The decision of the same event, from the four tests. *)
Lemma decision_codes_last_failure_witness :
  exists opt status st',
    handle_event ven1 (Some "r1") (Some "vtn1") (start ∅)
      (oadr_event "always" E1_elsewhere) = Ok st'
    /\ reply_events st' = [(Some "E1", 1, Some "r1", opt, status)]
    /\ (opt, status) = ("optOut", "405").
Proof.
  destruct (handle_event ven1 (Some "r1") (Some "vtn1") (start ∅)
              (oadr_event "always" E1_elsewhere)) as [st'|] eqn:Hst;
    [|vm_compute in Hst; discriminate].
  destruct (decision_codes_last_failure ven1 (Some "r1") (Some "vtn1") (start ∅)
              (oadr_event "always" E1_elsewhere) st' E1_elsewhere 1 None)
    as (opt & status & Hreply & Hd);
    [vm_compute; reflexivity..|exact Hst|].
  exists opt, status, st'. split; [reflexivity|]. split; [exact Hreply|].
  rewrite Hd. vm_compute. reflexivity.
Defined.

(** E1 received again with the number the store holds is answered
    optIn/200, not optOut/403. *)
Lemma duplicate_counterexample :
  exists st',
    handle_event ven1 (Some "r2") (Some "vtn1") (start store1)
      (oadr_event "always" E1) = Ok st'
    /\ reply_events st' = [(Some "E1", 1, Some "r2", "optIn", "200")]
    /\ reply_events st' <> [(Some "E1", 1, Some "r2", "optOut", "403")].
Proof.
  eexists. split; [vm_compute; reflexivity|].
  split; [vm_compute; reflexivity|]. vm_compute. discriminate.
Defined.

(** E2 received with a number below the stored one is answered
    optOut/403 and not stored. *)
Lemma stale_or_duplicate_reply_witness :
  exists opt status,
    handle_event ven1 (Some "r2") (Some "vtn1") (start store12)
      (oadr_event "always" (ei_event "E2" "3" "mkt1" [price] []))
    = Ok (LoopState [(Some "E2", 3, Some "r2", opt, status)] [Some "E2"] ∅ store12)
    /\ (opt, status) = ("optOut", "403").
Proof.
  destruct (stale_or_duplicate_reply ven1 (Some "r2") (Some "vtn1") (start store12)
              (oadr_event "always" (ei_event "E2" "3" "mkt1" [price] []))
              (ei_event "E2" "3" "mkt1" [price] []) 3 E2 4
              eq_refl eq_refl)
    as (opt & status & Hst & Hlt & _).
  - vm_compute. reflexivity.
  - vm_compute. reflexivity.
  - lia.
  - vm_compute. reflexivity.
  - exists opt, status. split; [exact Hst|].
    rewrite Hlt by lia. vm_compute. reflexivity.
Defined.

(** The store the callback finds already holds E1, which the store
    before the pass (the empty one) did not. *)
Lemma callback_store_counterexample :
  exists db_seen updated removed,
    callback_calls
      (handle_payload ven1_cb (distribute "r1" "vtn1" [oadr_event "always" E1]) ∅)
    = [(db_seen, updated, removed)]
    /\ get_event db_seen (Some "E1") = Some E1
    /\ db_seen <> ∅.
Proof.
  eexists _, _, _. split; [vm_compute; reflexivity|].
  split; [vm_compute; reflexivity|].
  intros Hempty. apply (f_equal (fun db => db !! Some "E1")) in Hempty.
  vm_compute in Hempty. discriminate.
Defined.

(** The callback between the updates and the removal, at a store that
    holds E1 and E2 and a payload that names E1 alone. *)
Lemma callback_between_updates_and_removal_witness :
  exists db_seen updated removed,
    callback_calls
      (handle_payload ven1_cb (distribute "r1" "vtn1" [oadr_event "always" E1])
         store12)
    = [(db_seen, updated, removed)]
    /\ db_after
         (handle_payload ven1_cb (distribute "r1" "vtn1" [oadr_event "always" E1])
            store12)
       = remove_events db_seen (map_to_list removed).*1.
Proof.
  destruct (callback_between_updates_and_removal ven1_cb
              (distribute "r1" "vtn1" [oadr_event "always" E1]) store12)
    as (db_seen & updated & removed & Hcall & _ & _ & Hafter).
  - exact store_wf_store12.
  - vm_compute. reflexivity.
  - vm_compute. reflexivity.
  - exists db_seen, updated, removed. split; [exact Hcall|exact Hafter].
Defined.

(** The targeting check at an event aimed at group G1 and a handler of
    another group. *)
Lemma check_target_info_witness :
  check_target_info
    (EventHandler_init "ven1" None None (Some "G2") None None "2.0a" None)
    E1_group = true
  <-> targets_me
        (EventHandler_init "ven1" None None (Some "G2") None None "2.0a" None)
        E1_group.
Proof.
  apply (proj2 (check_target_info_any_category
                  (EventHandler_init "ven1" None None (Some "G2") None None
                     "2.0a" None) E1_group)).
  intros (_ & Hgroup & _). vm_compute in Hgroup. discriminate.
Defined.

(** Signal gating at an event whose only signal is named "other". *)
Lemma simple_signal_gating_witness :
  get_signals E1_other (ns_map ven1) = None
  /\ forall st',
       handle_event ven1 (Some "r1") (Some "vtn1") (start ∅)
         (oadr_event "always" E1_other) = Ok st' ->
       reply_events st' = [(Some "E1", 1, Some "r1", "optOut", "403")].
Proof.
  split; [vm_compute; reflexivity|]. intros st' Hst.
  apply (proj2 (proj2 (simple_signal_selection_and_gating ven1 E1_other)))
    with (vtnID := Some "vtn1") (st := start ∅)
         (oadr_event := oadr_event "always" E1_other) (om := None);
    [vm_compute; reflexivity..|exact Hst].
Defined.

(** A simple signal without intervals gives the empty list, and the
    event is admitted. *)
Lemma hollow_signal_counterexample :
  get_signals E1_hollow (ns_map ven1) = Some []
  /\ exists st',
       handle_event ven1 (Some "r1") (Some "vtn1") (start ∅)
         (oadr_event "always" E1_hollow) = Ok st'
       /\ reply_events st' = [(Some "E1", 1, Some "r1", "optIn", "200")]
       /\ get_event (st_db st') (Some "E1") = Some E1_hollow.
Proof.
  split; [vm_compute; reflexivity|].
  eexists. split; [vm_compute; reflexivity|].
  split; vm_compute; reflexivity.
Defined.

(** An event without a modification number ahead of E1 stops the pass;
    E1 is neither stored nor answered. *)
Lemma malformed_record_counterexample :
  handle_payload ven1
    (distribute "r1" "vtn1"
       [oadr_event "always" E0_unnumbered; oadr_event "always" E1]) ∅
  = Pass (Raise TypeError) ∅ [].
Proof. vm_compute. reflexivity. Defined.

(** An event without a modification number between E1 and E2: E1 stays
    stored, E2 is never handled. *)
Lemma malformed_record_aborts_witness :
  handle_payload ven1
    (distribute "r1" "vtn1"
       [oadr_event "always" E1; oadr_event "always" E0_unnumbered;
        oadr_event "always" E2]) ∅
  = Pass (Raise TypeError) store1 [].
Proof.
  apply (malformed_record_aborts ven1
           (distribute "r1" "vtn1"
              [oadr_event "always" E1; oadr_event "always" E0_unnumbered;
               oadr_event "always" E2]) ∅
           [oadr_event "always" E1] (oadr_event "always" E0_unnumbered)
           [oadr_event "always" E2]
           (LoopState [(Some "E1", 1, Some "r1", "optIn", "200")] [Some "E1"]
              (<[Some "E1" := E1]> ∅) store1)
           E0_unnumbered TypeError).
  - vm_compute. reflexivity.
  - vm_compute. reflexivity.
  - vm_compute. reflexivity.
  - vm_compute. reflexivity.
  - vm_compute. reflexivity.
Defined.

(** Construction with the level "3.0". *)
Lemma unknown_profile_level_witness :
  ns_map (EventHandler_init "ven1" None None None None None "3.0" None) = NS_A.
Proof.
  apply (unknown_profile_level_is_20a "ven1" None None None None None "3.0" None);
    discriminate.
Defined.

(** ** The scenario of the spec *)

(** A first batch with E1 (number 1, market context mkt1, a simple price
    signal, no target, response always required): E1 is answered
    optIn/200 and stored. *)
Example scenario_first_batch :
  for_events ven1 (Some "r1") (Some "vtn1") [oadr_event "always" E1] (start ∅)
  = (LoopState [(Some "E1", 1, Some "r1", "optIn", "200")] [Some "E1"]
       (<[Some "E1" := E1]> ∅) store1, None)
  /\ db_after
       (handle_payload ven1 (distribute "r1" "vtn1" [oadr_event "always" E1]) ∅)
     = store1.
Proof. split; vm_compute; reflexivity. Qed.

(** A later batch without E1: E1 is removed, and there is nothing to
    answer. *)
Example scenario_batch_without_E1 :
  handle_payload ven1_cb (distribute "r3" "vtn1" []) store1
  = Pass (Ok None) ∅ [(store1, ∅, <[Some "E1" := Some E1]> ∅)].
Proof. vm_compute. reflexivity. Qed.

(** * Further properties *)

Import MoreSamples.

(** ** The start of the active period *)

Lemma head_app_Some {A} (l1 l2 : list A) x :
  head l1 = Some x -> head (l1 ++ l2) = Some x.
Proof. destruct l1; [discriminate|]. simpl. auto. Qed.

(** After [update_first_child], a search that finds nothing in the children
    [f] cannot update comes first upon the updated child. *)
Lemma update_first_child_head test f (g : Element -> list Element)
    (P : Element -> Prop) cs cs' :
  (forall c, test c = true -> f c = None -> g c = []) ->
  (forall c c', test c = true -> f c = Some c' ->
                test c' = true /\ exists x, head (g c') = Some x /\ P x) ->
  update_first_child test f cs = Some cs' ->
  exists x, head (flat_map g (List.filter test cs')) = Some x /\ P x.
Proof.
  intros Hnone Hsome. revert cs'.
  induction cs as [|c cs IH]; intros cs'; simpl; [discriminate|].
  destruct (test c) eqn:Ht.
  - destruct (f c) as [c'|] eqn:Hf.
    + intros [= <-]. destruct (Hsome c c' Ht Hf) as (Ht' & x & Hx & HP).
      simpl. rewrite Ht'. simpl. exists x. split; [|exact HP].
      apply head_app_Some, Hx.
    + destruct (update_first_child test f cs) as [cs''|]; simpl; [|discriminate].
      intros [= <-]. simpl. rewrite Ht. simpl. rewrite (Hnone c Ht Hf). simpl.
      apply IH. reflexivity.
  - destruct (update_first_child test f cs) as [cs''|]; simpl; [|discriminate].
    intros [= <-]. simpl. rewrite Ht. apply IH. reflexivity.
Qed.

Lemma update_first_child_Some_inv test f (g : Element -> list Element) cs cs' :
  (forall c, is_Some (f c) -> is_Some (head (g c))) ->
  update_first_child test f cs = Some cs' ->
  is_Some (head (flat_map g (List.filter test cs))).
Proof.
  intros Hf. revert cs'.
  induction cs as [|c cs IH]; intros cs'; simpl; [discriminate|].
  destruct (test c) eqn:Ht.
  - destruct (f c) as [c'|] eqn:Hfc.
    + intros _. simpl. destruct (Hf c) as [x Hx]; [rewrite Hfc; eauto|].
      exists x. apply head_app_Some, Hx.
    + destruct (update_first_child test f cs) as [cs''|]; simpl; [|discriminate].
      intros _. simpl. destruct (IH _ eq_refl) as [x Hx].
      destruct (g c) as [|y ys]; simpl; eauto.
  - destruct (update_first_child test f cs) as [cs''|]; simpl; [|discriminate].
    intros _. apply (IH _ eq_refl).
Qed.

(** The assignment goes through only when [find] has a match. *)
Lemma set_text_first_Some_find ns_map names s e e' :
  set_text_first ns_map names s e = Some e' ->
  is_Some (find e (child <$> names) ns_map).
Proof.
  revert e e'. induction names as [|q names IH]; intros e e'.
  - intros _. unfold find. simpl. eauto.
  - rewrite fmap_cons. unfold find. cbn [iterfind select set_text_first].
    destruct (update_first_child _ _ _) as [cs|] eqn:Hcs; simpl; [|discriminate].
    intros _.
    apply (update_first_child_Some_inv (tag_is ns_map q)
             (set_text_first ns_map names s)
             (fun c => iterfind c (child <$> names) ns_map) (children e) cs);
      [|exact Hcs].
    intros c [c' Hc']. exact (IH _ _ Hc').
Qed.

Lemma set_text_first_None ns_map names s e :
  set_text_first ns_map names s e = None <->
  find e (child <$> names) ns_map = None.
Proof.
  split; intros Hn.
  - destruct (find e (child <$> names) ns_map) eqn:Hf; [|reflexivity].
    destruct (set_text_first_is_Some ns_map names s e) as [e' He'];
      [rewrite Hf; eauto|congruence].
  - destruct (set_text_first ns_map names s e) as [e'|] eqn:Hs; [|reflexivity].
    destruct (set_text_first_Some_find _ _ _ _ _ Hs) as [x Hx]. congruence.
Qed.

(** What [find] comes upon after the assignment carries the text
    assigned. *)
Lemma set_text_first_find ns_map names s e e' :
  set_text_first ns_map names s e = Some e' ->
  exists x, find e' (child <$> names) ns_map = Some x /\ text x = Some s.
Proof.
  revert e e'. induction names as [|q names IH]; intros e e'.
  - simpl. intros [= <-]. unfold find. simpl. eauto.
  - rewrite fmap_cons. unfold find. cbn [iterfind select set_text_first].
    destruct (update_first_child _ _ _) as [cs|] eqn:Hcs; simpl; [|discriminate].
    intros [= <-]. simpl.
    apply (update_first_child_head (tag_is ns_map q) (set_text_first ns_map names s)
             (fun c => iterfind c (child <$> names) ns_map)
             (fun x => text x = Some s) (children e) cs); [| |exact Hcs].
    + intros c _ Hc. apply set_text_first_None in Hc. unfold find in Hc.
      destruct (iterfind c (child <$> names) ns_map); [reflexivity|discriminate].
    + intros c c' Ht Hc. split.
      * rewrite (tag_is_tag _ _ _ _ (set_text_first_tag _ _ _ _ _ Hc)). exact Ht.
      * exact (IH _ _ Hc).
Qed.


Section start.
Context `{Schedule}.

(** X1. The start that [set_active_period_start] writes is the one
  [get_active_period_start] reads afterwards; the assignment fails, with
  an [AttributeError], exactly when the event has no start element. *)
Theorem set_get_active_period_start evt dttm ns_map :
(forall evt',
    set_active_period_start evt dttm ns_map = Ok evt' ->
    findtext evt' dtstart_path ns_map = Some (dttm_to_str dttm)
    /\ get_active_period_start evt' ns_map
       = str_to_datetime (Some (dttm_to_str dttm)))
/\ (set_active_period_start evt dttm ns_map = Raise AttributeError <->
    find evt dtstart_path ns_map = None)
/\ (forall e, set_active_period_start evt dttm ns_map = Raise e ->
              e = AttributeError).
Proof.
unfold set_active_period_start, get_active_period_start, dtstart_path.
split; [|split].
- intros evt'.
  destruct (set_text_first _ _ _ _) as [e'|] eqn:He; [|discriminate].
  intros [= <-].
  destruct (set_text_first_find _ _ _ _ _ He) as (x & Hx & Htext).
  unfold findtext. rewrite Hx, Htext. auto.
- rewrite <- (set_text_first_None ns_map dtstart_names (dttm_to_str dttm) evt).
  destruct (set_text_first _ _ _ _); split; congruence.
- intros e. destruct (set_text_first _ _ _ _); congruence.
Qed.


End start.

Section accepted.
Context `{Schedule}.

(** X16. An event that is new, or newer than the stored one, is stored
  under its id with its number and the VTN id of the payload, and the very
  record that is stored is the one kept for the callback.  That record is
  the event as received when it gives no tolerance; when it gives one, it
  is the event with its start replaced by the start the scheduler draws
  from the start and the tolerance received. *)
Theorem accepted_event_is_stored self requestID vtnID st oadr_event st' evt m om :
find oadr_event [child ("ei", "eiEvent")] (ns_map self) = Some evt ->
get_mod_number evt (ns_map self) = Ok m ->
stored_mod_number (st_db st) (get_event_id evt (ns_map self)) (ns_map self)
  = Ok om ->
is_newer om m = true ->
handle_event self requestID vtnID st oadr_event = Ok st' ->
exists evt',
  st_db st' !! get_event_id evt (ns_map self)
    = Some (database.Row vtnID m evt')
  /\ updated_events st' !! get_event_id evt (ns_map self) = Some evt'
  /\ (forall k, k <> get_event_id evt (ns_map self) ->
                st_db st' !! k = st_db st !! k
                /\ updated_events st' !! k = updated_events st !! k)
  /\ if truthy (get_start_before_after evt (ns_map self)).1
        || truthy (get_start_before_after evt (ns_map self)).2
     then findtext evt' dtstart_path (ns_map self)
          = Some (dttm_to_str
                    (random_offset (get_active_period_start evt (ns_map self))
                       (get_start_before_after evt (ns_map self)).1
                       (get_start_before_after evt (ns_map self)).2))
     else evt' = evt.
Proof.
intros Hevt Hm Hom Hnew Hst.
rewrite (handle_event_eq _ _ _ _ _ _ _ _ Hevt Hm Hom) in Hst. cbv zeta in Hst.
rewrite Hnew in Hst.
destruct (randomize_start evt (ns_map self)) as [evt'|] eqn:Hr; [|discriminate].
injection Hst as <-. simpl. unfold database.update_event.
exists evt'. rewrite !lookup_insert_eq. split; [reflexivity|].
split; [reflexivity|]. split.
- intros k Hk. rewrite !lookup_insert_ne by congruence. auto.
- unfold randomize_start in Hr. destruct (_ || _).
  + unfold set_active_period_start in Hr.
    destruct (set_text_first _ _ _ _) as [e'|] eqn:He; [|discriminate].
    injection Hr as <-.
    destruct (set_text_first_find _ _ _ _ _ He) as (x & Hx & Htext).
    unfold findtext, dtstart_path. rewrite Hx, Htext. reflexivity.
  + congruence.
Qed.

End accepted.

(** ** The two profiles *)

Lemma flat_map_ext_all {A B} (f g : A -> list B) (l : list A) :
  (forall x, f x = g x) -> flat_map f l = flat_map g l.
Proof. intros Hfg. induction l as [|x l IH]; simpl; [reflexivity|]. by rewrite Hfg, IH. Qed.

Lemma filter_ext_all {A} (f g : A -> bool) (l : list A) :
  (forall x, f x = g x) -> List.filter f l = List.filter g l.
Proof. intros Hfg. induction l as [|x l IH]; simpl; [reflexivity|]. by rewrite Hfg, IH. Qed.

Lemma iterfind_same_in_both_profiles e path :
  same_in_both_profiles path = true ->
  iterfind e path NS_A = iterfind e path NS_B.
Proof.
  revert e. induction path as [|st path IH]; intros e; [reflexivity|].
  unfold same_in_both_profiles. cbn [forallb iterfind].
  rewrite andb_true_iff, bool_decide_eq_true. intros [Hst Hpath].
  assert (select NS_A st e = select NS_B st e) as ->.
  { destruct st as [q|q]; simpl in *; apply filter_ext_all; intros c;
      unfold tag_is; rewrite Hst; reflexivity. }
  apply flat_map_ext_all. intros c. apply IH, Hpath.
Qed.

Lemma findtext_same_in_both_profiles e path :
  same_in_both_profiles path = true ->
  findtext e path NS_A = findtext e path NS_B.
Proof.
  intros Hp. unfold findtext, find.
  rewrite (iterfind_same_in_both_profiles _ _ Hp). reflexivity.
Qed.

Lemma foldl_ext_all {A B} (f g : A -> B -> A) (a : A) (l : list B) :
  (forall x y, f x y = g x y) -> foldl f a l = foldl g a l.
Proof.
  intros Hfg. revert a. induction l as [|y l IH]; intros a; simpl; [reflexivity|].
  by rewrite Hfg, IH.
Qed.

(** X3. What is read from an event does not depend on the profile level:
    the two namespace maps differ on the prefix oadr alone, which no
    accessor of an event uses, so each accessor gives the same under the
    2.0a map and under the 2.0b map. *)
Theorem accessors_same_in_both_profiles evt :
  get_event_id evt NS_A = get_event_id evt NS_B
  /\ get_status evt NS_A = get_status evt NS_B
  /\ get_mod_number evt NS_A = get_mod_number evt NS_B
  /\ get_market_context evt NS_A = get_market_context evt NS_B
  /\ get_current_signal_value evt NS_A = get_current_signal_value evt NS_B
  /\ get_signals evt NS_A = get_signals evt NS_B
  /\ get_start_before_after evt NS_A = get_start_before_after evt NS_B
  /\ findtext evt dtstart_path NS_A = findtext evt dtstart_path NS_B
  /\ get_group_ids evt NS_A = get_group_ids evt NS_B
  /\ get_resource_ids evt NS_A = get_resource_ids evt NS_B
  /\ get_party_ids evt NS_A = get_party_ids evt NS_B
  /\ get_ven_ids evt NS_A = get_ven_ids evt NS_B.
Proof.
  assert (forall s, is_simple_signal NS_A s = is_simple_signal NS_B s) as Hsimple.
  { intros s. unfold is_simple_signal.
    rewrite !(findtext_same_in_both_profiles s) by reflexivity. reflexivity. }
  assert (forall i, interval_tuple NS_A i = interval_tuple NS_B i) as Htuple.
  { intros i. unfold interval_tuple.
    rewrite !(findtext_same_in_both_profiles i) by reflexivity. reflexivity. }
  assert (get_signals evt NS_A = get_signals evt NS_B) as Hsignals.
  { unfold get_signals, simple_signal.
    rewrite (iterfind_same_in_both_profiles evt) by reflexivity.
    rewrite (foldl_ext_all _ (fun acc signal =>
               if is_simple_signal NS_B signal then Some signal else acc))
      by (intros; rewrite Hsimple; reflexivity).
    destruct (foldl _ _ _) as [s|]; [|reflexivity].
    rewrite (iterfind_same_in_both_profiles s) by reflexivity.
    f_equal; apply list_fmap_ext; intros; apply Htuple. }
  unfold get_event_id, get_status, get_mod_number, get_market_context,
    get_current_signal_value, get_start_before_after, get_group_ids,
    get_resource_ids, get_party_ids, get_ven_ids.
  rewrite !(findtext_same_in_both_profiles evt) by reflexivity.
  rewrite !(iterfind_same_in_both_profiles evt) by reflexivity.
  repeat split; try reflexivity; exact Hsignals.
Qed.

(** ** [int] after [str] *)

Lemma lstrip_no_space s : no_space s = true -> lstrip s = s.
Proof.
  destruct s as [|a s]; [reflexivity|]. simpl.
  destruct (is_space a); [discriminate|reflexivity].
Qed.

Lemma rstrip_no_space s : no_space s = true -> rstrip s = s.
Proof.
  induction s as [|a s IH]; [reflexivity|]. simpl.
  destruct (is_space a); [discriminate|]. simpl. intros Hs. rewrite (IH Hs).
  destruct s; reflexivity.
Qed.

Lemma digits_value_string_of_uint acc d :
  digits_value acc (NilEmpty.string_of_uint d) = Some (uint_value acc d).
Proof.
  revert acc. induction d; intros acc; simpl; try reflexivity; apply IHd.
Qed.

Lemma no_space_string_of_uint d : no_space (NilEmpty.string_of_uint d) = true.
Proof. induction d; simpl; auto. Qed.

Lemma pos_of_uint_acc_value d acc :
  Z.pos (Pos.of_uint_acc d acc) = uint_value (Z.pos acc) d.
Proof.
  revert acc. induction d; intros acc; simpl; try reflexivity;
    rewrite IHd; f_equal; lia.
Qed.

Lemma of_uint_value d : Z.of_uint d = uint_value 0 d.
Proof.
  unfold Z.of_uint.
  induction d; simpl; try reflexivity; try exact IHd;
    rewrite pos_of_uint_acc_value; reflexivity.
Qed.

Lemma unsigned_value_string_of_uint d :
  unsigned_value (NilZero.string_of_uint d) = Some (uint_value 0 d).
Proof.
  destruct d as [|d|d|d|d|d|d|d|d|d|d]; [reflexivity|..].
  - exact (digits_value_string_of_uint 0 (Decimal.D0 d)).
  - exact (digits_value_string_of_uint 0 (Decimal.D1 d)).
  - exact (digits_value_string_of_uint 0 (Decimal.D2 d)).
  - exact (digits_value_string_of_uint 0 (Decimal.D3 d)).
  - exact (digits_value_string_of_uint 0 (Decimal.D4 d)).
  - exact (digits_value_string_of_uint 0 (Decimal.D5 d)).
  - exact (digits_value_string_of_uint 0 (Decimal.D6 d)).
  - exact (digits_value_string_of_uint 0 (Decimal.D7 d)).
  - exact (digits_value_string_of_uint 0 (Decimal.D8 d)).
  - exact (digits_value_string_of_uint 0 (Decimal.D9 d)).
Qed.

Lemma no_space_string_of_uint_zero d : no_space (NilZero.string_of_uint d) = true.
Proof.
  destruct d; [reflexivity|..];
    exact (no_space_string_of_uint (_ d)) || apply no_space_string_of_uint.
Qed.

Lemma parse_int_string_of_uint d :
  parse_int (NilZero.string_of_uint d) = Some (uint_value 0 d).
Proof.
  unfold parse_int.
  rewrite lstrip_no_space, rstrip_no_space by apply no_space_string_of_uint_zero.
  rewrite <- unsigned_value_string_of_uint.
  destruct d; reflexivity.
Qed.

Lemma parse_int_minus s :
  no_space s = true -> parse_int (String "-" s) = Z.opp <$> unsigned_value s.
Proof.
  intros Hs. unfold parse_int.
  replace (lstrip (String "-" s)) with (String "-" s) by reflexivity.
  rewrite rstrip_no_space by exact Hs. reflexivity.
Qed.

(** [int(str(n))] is [n]. *)
Lemma py_int_py_str z : py_int (Some (py_str z)) = Ok z.
Proof.
  unfold py_int, py_str.
  assert (parse_int (NilZero.string_of_int (Z.to_int z)) = Some z) as ->;
    [|reflexivity].
  rewrite <- (DecimalZ.of_to z) at 2.
  destruct (Z.to_int z) as [d|d]; simpl.
  - rewrite of_uint_value. apply parse_int_string_of_uint.
  - rewrite parse_int_minus by apply no_space_string_of_uint_zero.
    rewrite unsigned_value_string_of_uint, of_uint_value. reflexivity.
Qed.

(** ** More on the passes *)

Lemma event_ids_app (ns_map : nsmap) (l1 l2 : list Element) :
  event_ids ns_map (l1 ++ l2) = (event_ids ns_map l1 ++ event_ids ns_map l2)%list.
Proof. unfold event_ids. apply flat_map_app. Qed.

Lemma stored_mod_number_row (ns_map : nsmap) (db : database.DBHandler)
    (k : pystr) (om : option Z) :
  store_wf ns_map db ->
  stored_mod_number db k ns_map = Ok om ->
  om = database.mod_num <$> db !! k.
Proof.
  intros Hwf. unfold stored_mod_number, get_event, database.get_event.
  destruct (db !! k) as [row|] eqn:Hrow; simpl; [|congruence].
  destruct (store_wf_lookup _ _ _ _ Hwf Hrow) as [_ ->]. simpl. congruence.
Qed.

Section facts.
Context `{Schedule}.

Lemma loop_facts_start self requestID db :
loop_facts self requestID db [] (LoopState [] [] ∅ db).
Proof.
split; simpl.
- reflexivity.
- intros k. rewrite lookup_empty. intros [? [=]].
- constructor.
- constructor.
- intros k row Hk. exists row. split; [exact Hk|lia].
- intros k evt row. rewrite lookup_empty. discriminate.
- intros oe evt m Hin. inversion Hin.
Qed.

Lemma handle_event_facts self requestID vtnID db0 done st oadr_event st' :
store_wf (ns_map self) (st_db st) ->
loop_facts self requestID db0 done st ->
handle_event self requestID vtnID st oadr_event = Ok st' ->
loop_facts self requestID db0 (done ++ [oadr_event]) st'.
Proof.
intros Hwf [Hall Hupd Hrep Hreq Hkept Hnewer Hdone] Hst.
destruct (handle_event_Ok_inv _ _ _ _ _ _ Hst) as (evt & m & om & Hevt & Hm & Hom).
rewrite (handle_event_eq _ _ _ _ _ _ _ _ Hevt Hm Hom) in Hst. cbv zeta in Hst.
pose proof (stored_mod_number_row _ _ _ _ Hwf Hom) as Hrow.
set (e_id := get_event_id evt (ns_map self)) in *.
set (d := opt_status self evt om m (get_market_context evt (ns_map self))) in *.
set (rr := findtext oadr_event [child ("oadr", "oadrResponseRequired")]
             (ns_map self)) in *.
assert (event_ids (ns_map self) (done ++ [oadr_event])
        = (all_events st ++ [e_id])%list) as Hids.
{ rewrite event_ids_app, <- Hall. unfold event_ids. simpl. rewrite Hevt.
  reflexivity. }
assert (decision_event_id <$>
          (if reply_wanted om m rr
           then (reply_events st ++ [(e_id, m, requestID, d.1, d.2)])%list
           else reply_events st)
          `sublist_of` (all_events st ++ [e_id])%list) as Hrep'.
{ destruct (reply_wanted om m rr).
  - rewrite fmap_app. apply sublist_app; [exact Hrep|]. simpl. reflexivity.
  - apply sublist_inserts_r, Hrep. }
assert (Forall (fun d => decision_request_id d = requestID)
          (if reply_wanted om m rr
           then (reply_events st ++ [(e_id, m, requestID, d.1, d.2)])%list
           else reply_events st)) as Hreq'.
{ destruct (reply_wanted om m rr); [|exact Hreq].
  apply Forall_app. split; [exact Hreq|]. constructor; [reflexivity|constructor]. }
destruct (is_newer om m) eqn:Hnew.
- destruct (randomize_start evt (ns_map self)) as [evt'|] eqn:Hr; [|discriminate].
  injection Hst as <-. unfold database.update_event.
  assert (forall row, st_db st !! e_id = Some row -> database.mod_num row < m)
    as Hlt.
  { intros row Hk. rewrite Hk in Hrow. simpl in Hrow. subst om.
    unfold is_newer in Hnew. apply bool_decide_eq_true in Hnew. exact Hnew. }
  split; simpl.
  + symmetry. exact Hids.
  + intros k Hk. rewrite elem_of_app, list_elem_of_singleton.
    destruct (decide (e_id = k)) as [->|Hne]; [auto|].
    rewrite lookup_insert_ne in Hk by exact Hne. auto.
  + exact Hrep'.
  + exact Hreq'.
  + intros k row Hk. destruct (Hkept k row Hk) as (row' & Hrow' & Hle).
    destruct (decide (e_id = k)) as [->|Hne].
    * rewrite lookup_insert_eq. eexists. split; [reflexivity|]. simpl.
      specialize (Hlt row' Hrow'). lia.
    * rewrite lookup_insert_ne by exact Hne. eauto.
  + intros k e row. destruct (decide (e_id = k)) as [->|Hne].
    * rewrite lookup_insert_eq. intros [= <-] Hk.
      destruct (Hkept k row Hk) as (row' & Hrow' & Hle).
      exists m. split; [rewrite (randomize_start_mod _ _ _ Hr); exact Hm|].
      specialize (Hlt row' Hrow'). lia.
    * rewrite lookup_insert_ne by exact Hne. apply Hnewer.
  + intros oe e n Hin Hoe Hn.
    apply elem_of_app in Hin as [Hin|Hin].
    * destruct (Hdone oe e n Hin Hoe Hn) as (row & Hk & Hle).
      destruct (decide (e_id = get_event_id e (ns_map self))) as [Heq|Hne].
      -- rewrite <- Heq, lookup_insert_eq. eexists. split; [reflexivity|].
         simpl. rewrite <- Heq in Hk. specialize (Hlt row Hk). lia.
      -- rewrite lookup_insert_ne by exact Hne. eauto.
    * apply list_elem_of_singleton in Hin as ->.
      rewrite Hevt in Hoe. injection Hoe as <-.
      rewrite Hm in Hn. injection Hn as <-.
      fold e_id. rewrite lookup_insert_eq. eexists. split; [reflexivity|].
      simpl. lia.
- injection Hst as <-. split; simpl.
  + symmetry. exact Hids.
  + intros k Hk. rewrite elem_of_app. left. auto.
  + exact Hrep'.
  + exact Hreq'.
  + exact Hkept.
  + exact Hnewer.
  + intros oe e n Hin Hoe Hn.
    apply elem_of_app in Hin as [Hin|Hin]; [eauto|].
    apply list_elem_of_singleton in Hin as ->.
    rewrite Hevt in Hoe. injection Hoe as <-.
    rewrite Hm in Hn. injection Hn as <-. fold e_id.
    destruct (st_db st !! e_id) as [row|]; simpl in Hrow; subst om;
      [|discriminate].
    unfold is_newer in Hnew. apply bool_decide_eq_false in Hnew.
    exists row. split; [reflexivity|lia].
Qed.

(** The loop, however it ends: [done] are the events it got through. *)
Lemma for_events_facts self requestID vtnID db0 events done st st' r :
loop_inv self db0 st ->
loop_facts self requestID db0 done st ->
for_events self requestID vtnID events st = (st', r) ->
exists done',
  loop_facts self requestID db0 done' st'
  /\ loop_inv self db0 st'
  /\ (exists rest, (done ++ events = done' ++ rest)%list
                   /\ (r = None -> rest = [])
                   /\ forall e, r = Some e ->
                        exists oadr_event rest',
                          rest = oadr_event :: rest'
                          /\ handle_event self requestID vtnID st' oadr_event
                             = Raise e).
Proof.
revert done st. induction events as [|oe events IH]; intros done st Hinv Hfacts; simpl.
- intros [= <- <-]. exists done. split; [exact Hfacts|]. split; [exact Hinv|].
  exists []. split; [reflexivity|]. split; [reflexivity|discriminate].
- destruct (handle_event self requestID vtnID st oe) as [st1|e] eqn:Hoe.
  + intros Hrest.
    destruct (IH (done ++ [oe])%list st1
                (handle_event_step _ _ _ _ _ _ _ Hinv Hoe)
                (handle_event_facts _ _ _ _ _ _ _ _ (inv_wf _ _ _ Hinv) Hfacts Hoe)
                Hrest) as (done' & Hf & Hi & rest & Happ & Hr).
    exists done'. split; [exact Hf|]. split; [exact Hi|].
    exists rest. split; [|exact Hr]. rewrite <- Happ, <- app_assoc. reflexivity.
  + intros [= <- <-]. exists done. split; [exact Hfacts|]. split; [exact Hinv|].
    exists (oe :: events). split; [reflexivity|]. split; [discriminate|].
    intros e' [= <-]. eauto.
Qed.

End facts.

Section more_passes.
Context `{Schedule}.

(** The loop of a pass, with all that holds of its state at the end. *)
Lemma pass_loop self payload db st r :
store_wf (ns_map self) db ->
for_events self (payload_request_id self payload)
  (payload_vtn_id self payload) (payload_events self payload)
  (LoopState [] [] ∅ db) = (st, r) ->
loop_inv self db st
/\ exists done,
     loop_facts self (payload_request_id self payload) db done st
     /\ (r = None -> done = payload_events self payload).
Proof.
intros Hwf Hloop.
destruct (for_events_facts _ _ _ _ _ _ _ _ _ (loop_inv_start self db Hwf)
            (loop_facts_start self (payload_request_id self payload) db) Hloop)
  as (done & Hfacts & Hinv & rest & Happ & Hnone & _).
split; [exact Hinv|]. exists done. split; [exact Hfacts|].
intros ->. rewrite (Hnone eq_refl), app_nil_r in Happ. simpl in Happ. congruence.
Qed.

Lemma handle_payload_rejected self payload db :
vtn_rejected self (payload_vtn_id self payload) = true ->
handle_payload self payload db =
  Pass (Some <$> build_error_response self (payload_request_id self payload)
                   "400"
                   (Some ("Unknown vtnID: "
                          +:+ default "None" (payload_vtn_id self payload))))
    db [].
Proof.
unfold payload_vtn_id, payload_request_id, handle_payload. intros ->. reflexivity.
Qed.

(** X4. The modification number stored for an id never goes down in a
  pass, however the pass ends: a record that is still stored after the
  pass carries a number at least as large as the one stored before. *)
Theorem modification_numbers_never_decrease self payload db (k : pystr) row row' :
store_wf (ns_map self) db ->
db !! k = Some row ->
db_after (handle_payload self payload db) !! k = Some row' ->
database.mod_num row <= database.mod_num row'.
Proof.
intros Hwf Hrow.
destruct (vtn_rejected self (payload_vtn_id self payload)) eqn:Hvtn.
{ rewrite (handle_payload_rejected _ _ _ Hvtn). simpl. intros Hrow'.
  assert (row' = row) as -> by congruence. lia. }
destruct (for_events self (payload_request_id self payload)
            (payload_vtn_id self payload) (payload_events self payload)
            (LoopState [] [] ∅ db)) as [st r] eqn:Hloop.
destruct (pass_loop _ _ _ _ _ Hwf Hloop) as (_ & done & Hfacts & _).
destruct (facts_kept _ _ _ _ _ Hfacts k row Hrow) as (row1 & Hrow1 & Hle).
destruct r as [e|].
- rewrite (handle_payload_aborted _ _ _ _ _ Hvtn Hloop). simpl. intros Hrow'.
  assert (row' = row1) as -> by congruence. exact Hle.
- rewrite (handle_payload_completed _ _ _ _ Hvtn Hloop). cbv zeta. simpl.
  rewrite lookup_remove_events. destruct (decide _); [discriminate|].
  intros Hrow'. assert (row' = row1) as -> by congruence. exact Hle.
Qed.

(** The store once the cancelled events are removed. *)
Lemma lookup_after_removal self db0 st (k : pystr) :
loop_inv self db0 st ->
remove_events (st_db st)
  (map_to_list (cancelled_events self (st_db st) (all_events st))).*1 !! k
= if decide (k ∈ all_events st) then st_db st !! k else None.
Proof.
intros [Hwf' Hother Hseen Hupd]. rewrite lookup_remove_events.
destruct (decide (k ∈ all_events st)) as [Hin|Hnin].
- rewrite decide_False; [reflexivity|].
  rewrite elem_of_keys, (cancelled_events_seen _ _ _ _ Hin). intros [? [=]].
- destruct (decide _) as [_|Hkeys]; [reflexivity|].
  destruct (st_db st !! k) as [row|] eqn:Hrow; [|reflexivity].
  exfalso. apply Hkeys. rewrite elem_of_keys, (lookup_cancelled_events _ _ _ _ Hwf').
  rewrite decide_True; [eauto|]. split; [exact Hnin|]. rewrite Hrow. eauto.
Qed.

(** X5. After a pass over a payload of an accepted VTN whose events can all
  be handled, the store holds a record for exactly the ids the payload
  names. *)
Theorem store_holds_the_ids_of_the_payload self payload db :
store_wf (ns_map self) db ->
vtn_rejected self (payload_vtn_id self payload) = false ->
forallb (processable (ns_map self)) (payload_events self payload) = true ->
forall k : pystr,
  is_Some (db_after (handle_payload self payload db) !! k)
  <-> k ∈ event_ids (ns_map self) (payload_events self payload).
Proof.
intros Hwf Hvtn Hproc k.
destruct (for_events_processable self (payload_request_id self payload)
            (payload_vtn_id self payload) db _ _ (loop_inv_start self db Hwf) Hproc)
  as [st Hloop].
pose proof (for_events_inv_any _ _ _ _ _ _ _ _ (loop_inv_start self db Hwf) Hloop)
  as Hinv.
pose proof (for_events_all_events _ _ _ _ _ _ Hloop) as Hall. simpl in Hall.
rewrite (handle_payload_completed _ _ _ _ Hvtn Hloop). cbv zeta. simpl.
rewrite <- Hall, (lookup_after_removal _ _ _ _ Hinv).
destruct (decide (k ∈ all_events st)) as [Hin|Hnin].
- split; [auto|]. intros _. apply (inv_seen _ _ _ Hinv), Hin.
- split; [intros [? [=]]|contradiction].
Qed.

(** X6. What the callback is handed: every updated event is filed under its
  own id, an id of the payload, and is strictly newer than the record the
  store held for that id before the pass, if it held one; every removed
  id was in the store before the pass and is no id of the payload; so no
  id is both updated and removed. *)
Theorem updated_and_removed_events self payload db :
store_wf (ns_map self) db ->
vtn_rejected self (payload_vtn_id self payload) = false ->
forallb (processable (ns_map self)) (payload_events self payload) = true ->
exists db_seen updated removed,
  callback_calls (handle_payload self payload db) =
    match event_callback self with
    | Some _ => [(db_seen, updated, removed)]
    | None => []
    end
  /\ (forall (k : pystr) evt,
        updated !! k = Some evt ->
        get_event_id evt (ns_map self) = k
        /\ k ∈ event_ids (ns_map self) (payload_events self payload)
        /\ removed !! k = None
        /\ forall row, db !! k = Some row ->
             exists m, get_mod_number evt (ns_map self) = Ok m
                       /\ database.mod_num row < m)
  /\ (forall k : pystr,
        is_Some (removed !! k) ->
        is_Some (db !! k)
        /\ (k ∉ event_ids (ns_map self) (payload_events self payload))
        /\ updated !! k = None).
Proof.
intros Hwf Hvtn Hproc.
destruct (for_events_processable self (payload_request_id self payload)
            (payload_vtn_id self payload) db _ _ (loop_inv_start self db Hwf) Hproc)
  as [st Hloop].
destruct (pass_loop _ _ _ _ _ Hwf Hloop)
  as ([Hwf' Hother Hseen Hupd] & done & Hfacts & Hdone).
specialize (Hdone eq_refl). subst done.
destruct Hfacts as [Hall Hupdseen _ _ _ Hnewer _].
rewrite (handle_payload_completed _ _ _ _ Hvtn Hloop). cbv zeta. simpl.
eexists _, _, _. split; [reflexivity|]. rewrite <- Hall. split.
- intros k evt Hk.
  assert (k ∈ all_events st) as Hin by (apply Hupdseen; eauto).
  split; [|split; [exact Hin|split]].
  + specialize (Hupd k evt Hk). unfold get_event, database.get_event in Hupd.
    destruct (st_db st !! k) as [row|] eqn:Hrow; [|discriminate].
    injection Hupd as <-. apply (store_wf_lookup _ _ _ _ Hwf' Hrow).
  + apply cancelled_events_seen, Hin.
  + intros row. apply Hnewer, Hk.
- intros k. rewrite (lookup_cancelled_events _ _ _ _ Hwf').
  destruct (decide _) as [[Hnin Hsome]|_]; [|intros [? [=]]].
  intros _. split; [rewrite <- (Hother k Hnin); exact Hsome|].
  split; [exact Hnin|].
  destruct (updated_events st !! k) eqn:Hk; [|reflexivity].
  exfalso. apply Hnin, Hupdseen. eauto.
Qed.

(** X7. A payload without events empties the store: nothing is answered,
  every stored event is handed to the callback as removed, and the store
  is empty afterwards. *)
Theorem empty_payload_clears_the_store self payload db :
store_wf (ns_map self) db ->
vtn_rejected self (payload_vtn_id self payload) = false ->
payload_events self payload = [] ->
handle_payload self payload db =
  Pass (Ok None) ∅
    match event_callback self with
    | Some _ => [(db, ∅, (fun row => Some (database.raw_xml row)) <$> db)]
    | None => []
    end.
Proof.
intros Hwf Hvtn Hnil.
assert (for_events self (payload_request_id self payload)
          (payload_vtn_id self payload) (payload_events self payload)
          (LoopState [] [] ∅ db) = (LoopState [] [] ∅ db, None)) as Hloop
  by (rewrite Hnil; reflexivity).
rewrite (handle_payload_completed _ _ _ _ Hvtn Hloop). cbv zeta. simpl.
assert (cancelled_events self db []
        = (fun row => Some (database.raw_xml row)) <$> db) as ->.
{ apply map_eq. intros k. rewrite (lookup_cancelled_events _ _ _ _ Hwf).
  rewrite lookup_fmap. unfold get_event, database.get_event.
  destruct (decide _) as [[_ [row Hrow]]|Hno].
  - rewrite Hrow. reflexivity.
  - destruct (db !! k) as [row|] eqn:Hrow; [|reflexivity].
    exfalso. apply Hno. split; [apply not_elem_of_nil|eauto]. }
f_equal. apply map_eq. intros k. rewrite lookup_remove_events, lookup_empty.
destruct (decide _) as [_|Hkeys]; [reflexivity|].
destruct (db !! k) as [row|] eqn:Hrow; [|reflexivity].
exfalso. apply Hkeys. rewrite elem_of_keys, lookup_fmap, Hrow. simpl. eauto.
Qed.

End more_passes.

Section replay.
Context `{Schedule}.

(** Over a store that already holds, for each event of the list, a record
  at least as new, the loop runs to its end and writes nothing. *)
Lemma for_events_nothing_newer self requestID vtnID events st :
store_wf (ns_map self) (st_db st) ->
forallb (processable (ns_map self)) events = true ->
(forall oadr_event evt m,
    oadr_event ∈ events ->
    find oadr_event [child ("ei", "eiEvent")] (ns_map self) = Some evt ->
    get_mod_number evt (ns_map self) = Ok m ->
    exists row, st_db st !! get_event_id evt (ns_map self) = Some row
                /\ m <= database.mod_num row) ->
exists replies,
  for_events self requestID vtnID events st =
    (LoopState replies (all_events st ++ event_ids (ns_map self) events)
       (updated_events st) (st_db st), None).
Proof.
intros Hwf. revert st Hwf.
induction events as [|oe events IH]; intros st Hwf Hproc Hold.
- exists (reply_events st). simpl. rewrite app_nil_r. destruct st; reflexivity.
- simpl in Hproc. apply andb_true_iff in Hproc as [Hoe Hproc].
  unfold processable in Hoe.
  destruct (find oe [child ("ei", "eiEvent")] (ns_map self)) as [evt|] eqn:Hevt;
    [|discriminate].
  destruct (get_mod_number evt (ns_map self)) as [m|] eqn:Hm; [|discriminate].
  destruct (Hold oe evt m (list_elem_of_here _ _) Hevt Hm) as (row & Hrow & Hle).
  assert (stored_mod_number (st_db st) (get_event_id evt (ns_map self))
            (ns_map self) = Ok (Some (database.mod_num row))) as Hom.
  { unfold stored_mod_number, get_event, database.get_event. rewrite Hrow. simpl.
    destruct (store_wf_lookup _ _ _ _ Hwf Hrow) as [_ ->]. reflexivity. }
  simpl. rewrite (handle_event_eq _ _ _ _ _ _ _ _ Hevt Hm Hom). cbv zeta.
  unfold is_newer at 1. rewrite bool_decide_eq_false_2 by lia.
  match goal with
  | |- context [for_events _ _ _ _ ?st1] =>
      destruct (IH st1 Hwf Hproc) as [replies Hrest]
  end.
  { intros oe' evt' m' Hin. apply Hold. by apply list_elem_of_further. }
  exists replies. rewrite Hrest. simpl. rewrite <- app_assoc.
  unfold event_ids. simpl. rewrite Hevt. reflexivity.
Qed.

(** X8. Handling the same payload a second time changes nothing: after a
  pass over a payload of an accepted VTN whose events can all be handled,
  a second pass over that payload leaves the store as the first pass left
  it, and hands the callback no updated and no removed event. *)
Theorem second_pass_changes_nothing self payload db :
store_wf (ns_map self) db ->
vtn_rejected self (payload_vtn_id self payload) = false ->
forallb (processable (ns_map self)) (payload_events self payload) = true ->
db_after (handle_payload self payload
            (db_after (handle_payload self payload db)))
= db_after (handle_payload self payload db)
/\ callback_calls (handle_payload self payload
                     (db_after (handle_payload self payload db)))
   = match event_callback self with
     | Some _ => [(db_after (handle_payload self payload db), ∅, ∅)]
     | None => []
     end.
Proof.
intros Hwf Hvtn Hproc.
destruct (for_events_processable self (payload_request_id self payload)
            (payload_vtn_id self payload) db _ _ (loop_inv_start self db Hwf)
            Hproc) as [st Hloop].
destruct (pass_loop _ _ _ _ _ Hwf Hloop) as (Hinv & done & Hfacts & Hdone).
specialize (Hdone eq_refl). subst done.
rewrite (handle_payload_completed _ _ _ _ Hvtn Hloop). cbv zeta. simpl.
set (db1 := remove_events (st_db st)
              (map_to_list (cancelled_events self (st_db st) (all_events st))).*1).
assert (forall k : pystr,
          db1 !! k = if decide (k ∈ all_events st) then st_db st !! k else None)
  as Hdb1 by (intros k; apply (lookup_after_removal _ _ _ _ Hinv)).
assert (store_wf (ns_map self) db1) as Hwf1
  by apply store_wf_remove_events, (inv_wf _ _ _ Hinv).
assert (forall oadr_event evt m,
          oadr_event ∈ payload_events self payload ->
          find oadr_event [child ("ei", "eiEvent")] (ns_map self) = Some evt ->
          get_mod_number evt (ns_map self) = Ok m ->
          exists row,
            db1 !! get_event_id evt (ns_map self) = Some row
            /\ m <= database.mod_num row) as Hold.
{ intros oe evt m Hin Hevt Hm.
  destruct (facts_done _ _ _ _ _ Hfacts oe evt m Hin Hevt Hm) as (row & Hrow & Hle).
  exists row. split; [|exact Hle].
  rewrite Hdb1, decide_True; [exact Hrow|].
  rewrite (facts_all _ _ _ _ _ Hfacts).
  unfold event_ids. apply list_elem_of_In, in_flat_map. exists oe.
  split; [apply list_elem_of_In, Hin|]. rewrite Hevt. left. reflexivity. }
destruct (for_events_nothing_newer self (payload_request_id self payload)
            (payload_vtn_id self payload) (payload_events self payload)
            (LoopState [] [] ∅ db1) Hwf1 Hproc Hold) as [replies Hloop2].
simpl in Hloop2.
rewrite (handle_payload_completed _ _ _ _ Hvtn Hloop2). cbv zeta. simpl.
assert (cancelled_events self db1
          (event_ids (ns_map self) (payload_events self payload)) = ∅) as ->.
{ apply map_eq. intros k. rewrite (lookup_cancelled_events _ _ _ _ Hwf1).
  rewrite lookup_empty. destruct (decide _) as [[Hnin Hsome]|_]; [|reflexivity].
  exfalso. rewrite Hdb1 in Hsome. rewrite <- (facts_all _ _ _ _ _ Hfacts) in Hnin.
  rewrite decide_False in Hsome by exact Hnin. destruct Hsome as [? [=]]. }
rewrite map_to_list_empty. split; reflexivity.
Qed.

End replay.

(** ** The payloads returned *)

Lemma tag_is_Elem ns_map p l uri t x cs :
  ns_map !! p = Some uri ->
  tag_is ns_map (p, l) (Elem t x cs) = bool_decide (t = (uri, l)).
Proof. unfold tag_is. simpl. intros ->. reflexivity. Qed.

Lemma build_created_payload_eq self events oadr pyld ei :
  ns_map self !! "oadr" = Some oadr ->
  ns_map self !! "pyld" = Some pyld ->
  ns_map self !! "ei" = Some ei ->
  build_created_payload self events =
    match mapM (event_response ei pyld) events with
    | Ok responses =>
        Ok (Elem (oadr, "oadrCreatedEvent") None
              [Elem (pyld, "eiCreatedEvent") None
                 [Elem (ei, "eiResponse") None
                    [Elem (ei, "responseCode") (Some "200") [];
                     Elem (pyld, "requestID") None []];
                  Elem (ei, "eventResponses") None responses;
                  Elem (ei, "venID") (Some (ven_id self)) []]])
    | Raise e => Raise e
    end.
Proof.
  intros Ho Hp He. unfold build_created_payload, ns_get. rewrite Ho, Hp, He.
  simpl. unfold event_response.
  destruct (mapM _ events); reflexivity.
Qed.

Lemma event_response_writable ei pyld d :
  writable d -> exists r, event_response ei pyld d = Ok r.
Proof.
  destruct d as [[[[e_id m] rid] opt] status].
  intros [[i Hi] [r Hr]]. cbv in Hi, Hr. subst. eexists. reflexivity.
Qed.

Lemma event_response_not_writable ei pyld d :
  ~ writable d -> event_response ei pyld d = Raise TypeError.
Proof.
  destruct d as [[[[e_id m] rid] opt] status]. unfold writable. simpl.
  destruct rid as [rid|]; [|reflexivity].
  destruct e_id as [e_id|]; [|reflexivity].
  intros Hn. exfalso. apply Hn. split; eauto.
Qed.

Lemma event_response_Raise ei pyld d e :
  event_response ei pyld d = Raise e -> e = TypeError.
Proof.
  destruct d as [[[[[e_id|] m] [rid|]] opt] status];
    unfold event_response, E_text; cbn [mbind result_bind];
    unfold mret, result_ret; congruence.
Qed.

Lemma mapM_result_cons {A B} (f : A -> result B) x l :
  mapM f (x :: l) =
    match f x with
    | Ok y => match mapM f l with Ok ys => Ok (y :: ys) | Raise e => Raise e end
    | Raise e => Raise e
    end.
Proof. simpl. destruct (f x); [|reflexivity]. simpl. destruct (mapM f l); reflexivity. Qed.

Lemma mapM_event_response ei pyld events :
  (Forall writable events ->
   exists responses, mapM (event_response ei pyld) events = Ok responses)
  /\ (~ Forall writable events ->
      mapM (event_response ei pyld) events = Raise TypeError).
Proof.
  induction events as [|d events [IHok IHno]].
  - split; [intros _; exists []; reflexivity|]. intros Hn. exfalso. apply Hn. constructor.
  - rewrite mapM_result_cons. split.
    + intros Hall. apply Forall_cons in Hall as [Hd Hall].
      destruct (event_response_writable ei pyld d Hd) as [r ->].
      destruct (IHok Hall) as [rs ->]. eauto.
    + intros Hn.
      destruct (event_response ei pyld d) as [r|e] eqn:Hd.
      * rewrite IHno; [reflexivity|]. intros Hall. apply Hn. constructor; [|exact Hall].
        destruct d as [[[[[e_id|] m] [rid|]] opt] status];
          unfold event_response, E_text in Hd;
          cbn [mbind result_bind] in Hd; try discriminate.
        split; cbv; eauto.
      * f_equal. exact (event_response_Raise _ _ _ _ Hd).
Qed.

(** X9. Whether the created payload can be built: with the three prefixes
    bound, it is built when every reply tuple has an event id and a request
    id, and building it raises a [TypeError] otherwise (the element maker
    takes no [None]). *)
Theorem build_created_payload_outcome self events :
  is_Some (ns_map self !! "oadr") ->
  is_Some (ns_map self !! "pyld") ->
  is_Some (ns_map self !! "ei") ->
  (Forall writable events ->
   exists payload, build_created_payload self events = Ok payload)
  /\ (~ Forall writable events ->
      build_created_payload self events = Raise TypeError).
Proof.
  intros [oadr Ho] [pyld Hp] [ei He].
  rewrite (build_created_payload_eq _ _ _ _ _ Ho Hp He).
  destruct (mapM_event_response ei pyld events) as [Hok Hno]. split.
  - intros Hall. destruct (Hok Hall) as [rs ->]. eauto.
  - intros Hn. rewrite (Hno Hn). reflexivity.
Qed.

Ltac decide_tags :=
  repeat first
    [ rewrite bool_decide_eq_true_2 by reflexivity
    | rewrite bool_decide_eq_false_2 by discriminate ].

Lemma read_event_response_event_response ns_map ei pyld d r :
  ns_map !! "pyld" = Some pyld ->
  ns_map !! "ei" = Some ei ->
  event_response ei pyld d = Ok r ->
  tag r = (ei, "eventResponse")
  /\ read_event_response ns_map r =
       (decision_event_id d, Ok d.1.1.1.2, decision_request_id d,
        Some d.1.2, Some d.2).
Proof.
  intros Hp He.
  destruct d as [[[[[e_id|] m] [rid|]] opt] status];
    unfold event_response, E_text; cbn [mbind result_bind];
    unfold mret, result_ret; try discriminate.
  intros [= <-]. split; [reflexivity|].
  unfold read_event_response, findtext, find.
  cbn [iterfind select children List.filter flat_map app].
  rewrite !(tag_is_Elem _ "ei" _ _ _ _ _ He), !(tag_is_Elem _ "pyld" _ _ _ _ _ Hp).
  decide_tags.
  cbn [iterfind select children List.filter flat_map app].
  rewrite !(tag_is_Elem _ "ei" _ _ _ _ _ He). decide_tags.
  cbn [List.filter flat_map app head text default decision_event_id
         decision_request_id fst snd].
  unfold id. rewrite py_int_py_str. reflexivity.
Qed.

Lemma mapM_event_response_read ns_map ei pyld events responses :
  ns_map !! "pyld" = Some pyld ->
  ns_map !! "ei" = Some ei ->
  mapM (event_response ei pyld) events = Ok responses ->
  List.filter (tag_is ns_map ("ei", "eventResponse")) responses = responses
  /\ read_event_response ns_map <$> responses =
       (fun d : decision =>
          (decision_event_id d, Ok d.1.1.1.2, decision_request_id d,
           Some d.1.2, Some d.2)) <$> events.
Proof.
  intros Hp He. revert responses.
  induction events as [|d events IH]; intros responses.
  - intros [= <-]. split; reflexivity.
  - rewrite mapM_result_cons.
    destruct (event_response ei pyld d) as [r|] eqn:Hd; [|discriminate].
    destruct (mapM (event_response ei pyld) events) as [rs|]; [|discriminate].
    intros [= <-]. destruct (IH rs eq_refl) as [Hf Hr].
    destruct (read_event_response_event_response _ _ _ _ _ Hp He Hd) as [Htag Hread].
    split.
    + simpl. unfold tag_is at 1. simpl. rewrite He, Htag.
      rewrite bool_decide_eq_true_2 by reflexivity. rewrite Hf. reflexivity.
    + rewrite !fmap_cons, Hread, Hr. reflexivity.
Qed.

(** X10. The created payload reads back as the reply tuples it was built
    from: its [ei:eventResponse] elements are one per tuple, in the order
    of the tuples, and each gives back the event id, the modification
    number (through [int]), the request id, the opt type and the status of
    its tuple; the payload carries the id of the VEN. *)
Theorem created_payload_reads_back self events payload :
  build_created_payload self events = Ok payload ->
  read_event_response (ns_map self) <$> event_responses payload (ns_map self)
  = (fun d : decision =>
       (decision_event_id d, Ok d.1.1.1.2, decision_request_id d,
        Some d.1.2, Some d.2)) <$> events
  /\ findtext payload [child ("pyld", "eiCreatedEvent"); child ("ei", "venID")]
       (ns_map self) = Some (ven_id self).
Proof.
  intros Hbuild.
  assert (exists oadr pyld ei,
            ns_map self !! "oadr" = Some oadr
            /\ ns_map self !! "pyld" = Some pyld
            /\ ns_map self !! "ei" = Some ei) as (oadr & pyld & ei & Ho & Hp & He).
  { unfold build_created_payload, ns_get in Hbuild.
    destruct (ns_map self !! "oadr") as [oadr|]; [|discriminate].
    destruct (ns_map self !! "pyld") as [pyld|]; [|discriminate].
    destruct (ns_map self !! "ei") as [ei|]; [|discriminate]. eauto 7. }
  rewrite (build_created_payload_eq _ _ _ _ _ Ho Hp He) in Hbuild.
  destruct (mapM (event_response ei pyld) events) as [responses|] eqn:Hmap;
    [|discriminate].
  injection Hbuild as <-.
  destruct (mapM_event_response_read _ _ _ _ _ Hp He Hmap) as [Hfilter Hread].
  unfold event_responses, findtext, find.
  cbn [iterfind select children List.filter flat_map app].
  rewrite !(tag_is_Elem _ "pyld" _ _ _ _ _ Hp). decide_tags.
  cbn [iterfind select children List.filter flat_map app].
  rewrite !(tag_is_Elem _ "ei" _ _ _ _ _ He). decide_tags.
  cbn [iterfind select children List.filter flat_map app head text default].
  rewrite Hfilter. split; [|reflexivity].
  replace (flat_map (fun c : Element => [c]) responses) with responses;
    [rewrite ?app_nil_r; exact Hread|].
  clear. induction responses as [|r rs IH]; simpl; [reflexivity|]. by rewrite <- IH.
Qed.

Lemma split_comma_nonempty s : split_comma s <> [].
Proof.
  destruct s as [|a s]; simpl; [discriminate|].
  case_bool_decide; [discriminate|]. destruct (split_comma s); discriminate.
Qed.

Lemma join_comma_cons s l :
  l <> [] -> join_comma (s :: l) = s +:+ String "," (join_comma l).
Proof. destruct l; [done|reflexivity]. Qed.

Lemma join_comma_String a x xs :
  join_comma (String a x :: xs) = String a (join_comma (x :: xs)).
Proof. destruct xs; reflexivity. Qed.

Lemma split_comma_join s :
  join_comma (split_comma s) = s
  /\ Forall (fun piece => no_comma piece = true) (split_comma s).
Proof.
  induction s as [|a s [IHj IHc]]; simpl.
  - split; [reflexivity|]. constructor; [reflexivity|constructor].
  - pose proof (split_comma_nonempty s) as Hne.
    case_bool_decide as Ha.
    + subst a. split.
      * rewrite (join_comma_cons _ _ Hne), IHj. reflexivity.
      * constructor; [reflexivity|exact IHc].
    + destruct (split_comma s) as [|x xs] eqn:Hs; [done|]. split.
      * rewrite join_comma_String, IHj. reflexivity.
      * apply Forall_cons in IHc as [Hx Hxs]. constructor; [|exact Hxs].
        simpl. rewrite bool_decide_eq_false_2 by exact Ha. exact Hx.
Qed.

Lemma EventHandler_init_lists (ven : string) (vtns contexts : pystr)
    (group resource party : pystr) (level : string)
    (callback : option (updated_map -> removed_map -> result unit)) :
  vtn_ids (EventHandler_init ven vtns contexts group resource party level callback)
    = split_comma <$> vtns
  /\ market_contexts
       (EventHandler_init ven vtns contexts group resource party level callback)
     = split_comma <$> contexts.
Proof. unfold EventHandler_init. repeat case_bool_decide; simpl; auto. Qed.

Lemma nonempty_split_comma s : nonempty (split_comma s) = true.
Proof.
  pose proof (split_comma_nonempty s). destruct (split_comma s); [done|reflexivity].
Qed.

(** X11. The lists [__init__] makes of its two CSV strings, and the filters
    they give.  The entries are the pieces between the commas, kept as they
    are: joined with commas they give the string back, and none holds a
    comma.  With a VTN string a payload is let through exactly when its VTN
    id is one of the pieces, and without one every payload is let through;
    the same holds of the market contexts. *)
Theorem csv_lists_and_their_filters (ven : string) (vtns contexts : pystr)
    (group resource party : pystr) (level : string)
    (callback : option (updated_map -> removed_map -> result unit))
    (x : pystr) :
  (forall csv, join_comma (split_comma csv) = csv
               /\ Forall (fun piece => no_comma piece = true) (split_comma csv))
  /\ (vtn_rejected
        (EventHandler_init ven vtns contexts group resource party level callback)
        x = false
      <-> vtns = None
          \/ exists csv s, vtns = Some csv /\ x = Some s /\ s ∈ split_comma csv)
  /\ (market_context_mismatch
        (EventHandler_init ven vtns contexts group resource party level callback)
        x = false
      <-> contexts = None
          \/ exists csv s, contexts = Some csv /\ x = Some s
                           /\ s ∈ split_comma csv).
Proof.
  split; [exact split_comma_join|].
  unfold vtn_rejected, market_context_mismatch.
  destruct (EventHandler_init_lists ven vtns contexts group resource party level
              callback) as [-> ->].
  split.
  - destruct vtns as [csv|]; simpl.
    + rewrite nonempty_split_comma. simpl. rewrite negb_false_iff, py_in_strs_spec.
      split.
      * intros (s & -> & Hs). right. eauto.
      * intros [[=]|(csv' & s & [= <-] & -> & Hs)]. eauto.
    + split; auto.
  - destruct contexts as [csv|]; simpl.
    + rewrite nonempty_split_comma. simpl. rewrite negb_false_iff, py_in_strs_spec.
      split.
      * intros (s & -> & Hs). right. eauto.
      * intros [[=]|(csv' & s & [= <-] & -> & Hs)]. eauto.
    + split; auto.
Qed.

Section answers.
Context `{Schedule}.

(** X12. A payload of a VTN that is not on the list is not looked into: the
  store stays as it is, the callback is not called, and the answer is the
  error payload, which carries the code 400 and the id of the VEN, and
  neither the request id nor the VTN id of the payload. *)
Theorem rejected_payload self payload db oadr pyld ei :
ns_map self !! "oadr" = Some oadr ->
ns_map self !! "pyld" = Some pyld ->
ns_map self !! "ei" = Some ei ->
vtn_rejected self (payload_vtn_id self payload) = true ->
handle_payload self payload db =
  Pass
    (Ok (Some
           (Elem (oadr, "oadrCreatedEvent") None
              [Elem (pyld, "eiCreatedEvent") None
                 [Elem (ei, "eiResponse") None
                    [Elem (ei, "responseCode") (Some "400") [];
                     Elem (pyld, "requestID") None []];
                  Elem (ei, "venID") (Some (ven_id self)) []]])))
    db [].
Proof.
intros Ho Hp He Hvtn. rewrite (handle_payload_rejected _ _ _ Hvtn).
unfold build_error_response, ns_get. rewrite Ho, Hp, He. reflexivity.
Qed.

Lemma handle_event_answer self requestID vtnID st oadr_event st' :
handle_event self requestID vtnID st oadr_event = Ok st' ->
(exists d, reply_events st' = (reply_events st ++ [d])%list
           /\ decision_answer d ∈ answers
           /\ findtext oadr_event [child ("oadr", "oadrResponseRequired")]
                (ns_map self) <> Some "never")
\/ (reply_events st' = reply_events st
    /\ findtext oadr_event [child ("oadr", "oadrResponseRequired")]
         (ns_map self) <> Some "always").
Proof.
intros Hst.
destruct (handle_event_Ok_inv _ _ _ _ _ _ Hst) as (evt & m & om & Hevt & Hm & Hom).
rewrite (handle_event_reply _ _ _ _ _ _ _ _ _ Hevt Hm Hom Hst). cbv zeta.
unfold reply_wanted.
set (rr := findtext oadr_event [child ("oadr", "oadrResponseRequired")]
             (ns_map self)).
destruct (bool_decide (rr = Some "never")) eqn:Hnever.
- rewrite andb_false_r. right. split; [reflexivity|].
  apply bool_decide_eq_true in Hnever. rewrite Hnever. discriminate.
- rewrite andb_true_r. apply bool_decide_eq_false in Hnever.
  destruct (is_newer om m || bool_decide (rr = Some "always")) eqn:Hw.
  + left. eexists. split; [reflexivity|]. split; [|exact Hnever].
    unfold decision_answer. cbn [fst snd]. rewrite <- surjective_pairing.
    rewrite opt_status_eq. unfold answers.
    destruct (market_context_mismatch _ _); [set_solver|].
    destruct (_ || _ || _); set_solver.
  + right. split; [reflexivity|].
    apply orb_false_iff in Hw as [_ Hw]. apply bool_decide_eq_false in Hw. exact Hw.
Qed.

Lemma for_events_answers self requestID vtnID events st st' r :
for_events self requestID vtnID events st = (st', r) ->
exists ds,
  reply_events st' = (reply_events st ++ ds)%list
  /\ Forall (fun d => decision_answer d ∈ answers) ds
  /\ (Forall (fun oadr_event =>
                findtext oadr_event [child ("oadr", "oadrResponseRequired")]
                  (ns_map self) = Some "never") events -> ds = [])
  /\ (r = None ->
      Exists (fun oadr_event =>
                findtext oadr_event [child ("oadr", "oadrResponseRequired")]
                  (ns_map self) = Some "always") events -> ds <> []).
Proof.
revert st. induction events as [|oe events IH]; intros st; simpl.
- intros [= <- <-]. exists []. rewrite app_nil_r.
  repeat split; auto; intros _ Hex; inversion Hex.
- destruct (handle_event self requestID vtnID st oe) as [st1|e] eqn:Hoe.
  + intros Hrest. destruct (IH _ Hrest) as (ds & Hds & Hall & Hnever & Halways).
    destruct (handle_event_answer _ _ _ _ _ _ Hoe)
      as [(d & Hd & Hans & Hnn)|[Hsame Hna]].
    * exists (d :: ds). rewrite Hds, Hd, <- app_assoc. split; [reflexivity|].
      split; [constructor; assumption|]. split.
      -- intros Hn. apply Forall_cons in Hn as [Hn _]. contradiction.
      -- discriminate.
    * exists ds. rewrite Hds, Hsame. split; [reflexivity|].
      split; [exact Hall|]. split.
      -- intros Hn. apply Forall_cons in Hn as [_ Hn]. auto.
      -- intros Hr Hex. apply Exists_cons in Hex as [Hal|Hex]; [contradiction|auto].
  + intros [= <- <-]. exists []. rewrite app_nil_r.
    repeat split; auto; discriminate.
Qed.

(** X13. The replies of a pass follow its payload: whatever stops the
  loop, the tuples collected so far answer events of the payload in the
  order of the payload, at most one tuple for an event, each with the
  request id of the payload and one of the answers optIn/200, optOut/403
  and optOut/405. *)
Theorem replies_follow_the_payload self payload db st r :
store_wf (ns_map self) db ->
for_events self (payload_request_id self payload)
  (payload_vtn_id self payload) (payload_events self payload)
  (LoopState [] [] ∅ db) = (st, r) ->
decision_event_id <$> reply_events st
  `sublist_of` event_ids (ns_map self) (payload_events self payload)
/\ Forall (fun d => decision_request_id d = payload_request_id self payload
                    /\ decision_answer d ∈ answers) (reply_events st).
Proof.
intros Hwf Hloop.
destruct (for_events_facts _ _ _ _ _ _ _ _ _ (loop_inv_start self db Hwf)
            (loop_facts_start self (payload_request_id self payload) db) Hloop)
  as (done & Hfacts & _ & rest & Happ & _).
destruct (for_events_answers _ _ _ _ _ _ _ Hloop) as (ds & Hds & Hans & _).
simpl in Happ, Hds. split.
- rewrite Happ, event_ids_app. apply sublist_inserts_r.
  rewrite <- (facts_all _ _ _ _ _ Hfacts). exact (facts_replies _ _ _ _ _ Hfacts).
- apply Forall_and. split; [exact (facts_request _ _ _ _ _ Hfacts)|].
  rewrite Hds. exact Hans.
Qed.

(** X14. No answer where none is wanted: when every event of the payload
  says that a response is never required, the pass returns nothing
  ([None]), while the events are stored and removed as in any pass. *)
Theorem never_required_returns_nothing self payload db :
store_wf (ns_map self) db ->
vtn_rejected self (payload_vtn_id self payload) = false ->
forallb (processable (ns_map self)) (payload_events self payload) = true ->
Forall (fun oadr_event =>
          findtext oadr_event [child ("oadr", "oadrResponseRequired")]
            (ns_map self) = Some "never") (payload_events self payload) ->
returned (handle_payload self payload db) = Ok None
/\ forall k : pystr,
     is_Some (db_after (handle_payload self payload db) !! k)
     <-> k ∈ event_ids (ns_map self) (payload_events self payload).
Proof.
intros Hwf Hvtn Hproc Hnever.
destruct (for_events_processable self (payload_request_id self payload)
            (payload_vtn_id self payload) db _ _ (loop_inv_start self db Hwf) Hproc)
  as [st Hloop].
pose proof (for_events_inv_any _ _ _ _ _ _ _ _ (loop_inv_start self db Hwf) Hloop)
  as Hinv.
pose proof (for_events_all_events _ _ _ _ _ _ Hloop) as Hall. simpl in Hall.
destruct (for_events_answers _ _ _ _ _ _ _ Hloop) as (ds & Hds & _ & Hnone & _).
rewrite (Hnone Hnever) in Hds. simpl in Hds.
rewrite (handle_payload_completed _ _ _ _ Hvtn Hloop). cbv zeta. simpl.
rewrite Hds. split; [reflexivity|].
intros k. rewrite <- Hall, (lookup_after_removal _ _ _ _ Hinv).
destruct (decide (k ∈ all_events st)) as [Hin|Hnin].
- split; [auto|]. intros _. apply (inv_seen _ _ _ Hinv), Hin.
- split; [intros [? [=]]|contradiction].
Qed.

(** X15. A payload without a request id cannot be answered: when one of
  its events says that a response is always required, building the
  created payload raises a [TypeError], after the store has been updated:
  the pass ends in the exception with the events of the payload stored
  and the others removed. *)
Theorem missing_request_id_raises self payload db oadr_event :
store_wf (ns_map self) db ->
vtn_rejected self (payload_vtn_id self payload) = false ->
forallb (processable (ns_map self)) (payload_events self payload) = true ->
is_Some (ns_map self !! "oadr") ->
is_Some (ns_map self !! "pyld") ->
is_Some (ns_map self !! "ei") ->
payload_request_id self payload = None ->
oadr_event ∈ payload_events self payload ->
findtext oadr_event [child ("oadr", "oadrResponseRequired")] (ns_map self)
  = Some "always" ->
returned (handle_payload self payload db) = Raise TypeError
/\ forall k : pystr,
     is_Some (db_after (handle_payload self payload db) !! k)
     <-> k ∈ event_ids (ns_map self) (payload_events self payload).
Proof.
intros Hwf Hvtn Hproc [oadr Ho] [pyld Hp] [ei He] Hrid Hin Halways.
destruct (for_events_processable self (payload_request_id self payload)
            (payload_vtn_id self payload) db _ _ (loop_inv_start self db Hwf) Hproc)
  as [st Hloop].
destruct (pass_loop _ _ _ _ _ Hwf Hloop) as (Hinv & done & Hfacts & _).
pose proof (for_events_all_events _ _ _ _ _ _ Hloop) as Hall. simpl in Hall.
destruct (for_events_answers _ _ _ _ _ _ _ Hloop) as (ds & Hds & _ & _ & Hsome).
simpl in Hds. specialize (Hsome eq_refl).
rewrite (handle_payload_completed _ _ _ _ Hvtn Hloop). cbv zeta. simpl. split.
- destruct (reply_events st) as [|d l] eqn:Hreplies.
  { exfalso. apply Hsome; [|congruence]. apply Exists_exists. eauto. }
  rewrite (build_created_payload_eq _ _ _ _ _ Ho Hp He).
  destruct (mapM_event_response ei pyld (d :: l)) as [_ ->]; [reflexivity|].
  intros Hall'. apply Forall_cons in Hall' as [[_ [rid Hd]] _].
  pose proof (facts_request _ _ _ _ _ Hfacts) as Hreq.
  rewrite Hreplies in Hreq. apply Forall_cons in Hreq as [Hreq _].
  rewrite Hreq, Hrid in Hd. discriminate.
- intros k. rewrite <- Hall, (lookup_after_removal _ _ _ _ Hinv).
  destruct (decide (k ∈ all_events st)) as [Hk|Hnk].
  + split; [auto|]. intros _. apply (inv_seen _ _ _ Hinv), Hk.
  + split; [intros [? [=]]|contradiction].
Qed.

End answers.

(** ** The further properties at the sample payloads *)


(** The number of E1 through a pass that brings E1 with the number 2. *)
Lemma modification_numbers_never_decrease_witness :
  exists row',
    db_after (handle_payload ven1 (distribute "r1" "vtn1" [oadr_event "always" E1_second])
                store12) !! Some "E1" = Some row'
    /\ 1 <= database.mod_num row'.
Proof.
  destruct (db_after (handle_payload ven1
                        (distribute "r1" "vtn1" [oadr_event "always" E1_second])
                        store12) !! Some "E1") as [row'|] eqn:Hrow';
    [|vm_compute in Hrow'; discriminate].
  exists row'. split; [reflexivity|].
  apply (modification_numbers_never_decrease ven1
           (distribute "r1" "vtn1" [oadr_event "always" E1_second]) store12
           (Some "E1") (database.Row (Some "vtn1") 1 E1) row'
           store_wf_store12).
  - vm_compute. reflexivity.
  - exact Hrow'.
Defined.

(** The store after a pass that brings E1 twice. *)
Lemma store_holds_the_ids_of_the_payload_witness :
  is_Some (db_after (handle_payload ven1 twice store12) !! Some "E2")
  <-> Some "E2" ∈ event_ids (ns_map ven1) (payload_events ven1 twice).
Proof.
  apply (store_holds_the_ids_of_the_payload ven1 twice store12 store_wf_store12);
    vm_compute; reflexivity.
Defined.

(** What the callback is handed when E1 comes with the number 2 to a store
    that holds E1 and E2. *)
Lemma updated_and_removed_events_witness :
  exists db_seen updated removed,
    callback_calls
      (handle_payload ven1_cb
         (distribute "r1" "vtn1" [oadr_event "always" E1_second]) store12)
    = [(db_seen, updated, removed)]
    /\ (forall (k : pystr) evt, updated !! k = Some evt -> removed !! k = None).
Proof.
  destruct (updated_and_removed_events ven1_cb
              (distribute "r1" "vtn1" [oadr_event "always" E1_second]) store12
              store_wf_store12)
    as (db_seen & updated & removed & Hcall & Hupd & _);
    [vm_compute; reflexivity..|].
  exists db_seen, updated, removed. split; [exact Hcall|].
  intros k evt Hk. apply (Hupd k evt Hk).
Defined.

(** A payload without events at a store that holds E1 and E2. *)
Lemma empty_payload_clears_the_store_witness :
  handle_payload ven1 (distribute "r1" "vtn1" []) store12 = Pass (Ok None) ∅ [].
Proof.
  apply (empty_payload_clears_the_store ven1 (distribute "r1" "vtn1" []) store12
           store_wf_store12); vm_compute; reflexivity.
Defined.

(** The payload with E1 twice, handled twice. *)
Lemma second_pass_changes_nothing_witness :
  db_after (handle_payload ven1 twice (db_after (handle_payload ven1 twice store12)))
  = db_after (handle_payload ven1 twice store12).
Proof.
  apply (second_pass_changes_nothing ven1 twice store12 store_wf_store12);
    vm_compute; reflexivity.
Defined.

(** A tuple without a request id cannot be written. *)
Lemma build_created_payload_outcome_witness :
  build_created_payload ven1 [(Some "E1", 1, None, "optIn", "200")]
  = Raise TypeError.
Proof.
  apply (build_created_payload_outcome ven1 [(Some "E1", 1, None, "optIn", "200")]).
  - vm_compute. eauto.
  - vm_compute. eauto.
  - vm_compute. eauto.
  - intros Hall. apply Forall_cons in Hall as [[_ [? Hrid]] _]. discriminate.
Defined.

(** Two tuples written and read back. *)
Lemma created_payload_reads_back_witness :
  exists payload,
    build_created_payload ven1
      [(Some "E1", 1, Some "r1", "optIn", "200");
       (Some "E2", -4, Some "r1", "optOut", "405")] = Ok payload
    /\ read_event_response (ns_map ven1) <$> event_responses payload (ns_map ven1)
       = [(Some "E1", Ok 1, Some "r1", Some "optIn", Some "200");
          (Some "E2", Ok (-4), Some "r1", Some "optOut", Some "405")].
Proof.
  destruct (build_created_payload ven1
              [(Some "E1", 1, Some "r1", "optIn", "200");
               (Some "E2", -4, Some "r1", "optOut", "405")]) as [payload|] eqn:Hb;
    [|vm_compute in Hb; discriminate].
  exists payload. split; [reflexivity|].
  apply (created_payload_reads_back ven1 _ payload Hb).
Defined.

(** A payload of a VTN that is not on the list of two. *)
Lemma rejected_payload_witness :
  handle_payload ven1_listed (distribute "r1" "vtn3" [oadr_event "always" E1])
    store12
  = Pass
      (Ok (Some
             (Elem (OADR_XMLNS_A, "oadrCreatedEvent") None
                [Elem (PYLD_XMLNS_A, "eiCreatedEvent") None
                   [Elem (EI_XMLNS_A, "eiResponse") None
                      [Elem (EI_XMLNS_A, "responseCode") (Some "400") [];
                       Elem (PYLD_XMLNS_A, "requestID") None []];
                    Elem (EI_XMLNS_A, "venID") (Some "ven1") []]])))
      store12 [].
Proof.
  apply (rejected_payload ven1_listed
           (distribute "r1" "vtn3" [oadr_event "always" E1]) store12);
    vm_compute; reflexivity.
Defined.

(** The replies to the payload with E1 twice. *)
Lemma replies_follow_the_payload_witness :
  exists st,
    for_events ven1 (Some "r1") (Some "vtn1") (payload_events ven1 twice) (start ∅)
    = (st, None)
    /\ decision_event_id <$> reply_events st
         `sublist_of` event_ids (ns_map ven1) (payload_events ven1 twice).
Proof.
  destruct (for_events ven1 (Some "r1") (Some "vtn1") (payload_events ven1 twice)
              (start ∅)) as [st r] eqn:Hloop.
  assert (r = None) as -> by (vm_compute in Hloop; congruence).
  exists st. split; [reflexivity|].
  apply (replies_follow_the_payload ven1 twice ∅ st None).
  - apply map_Forall_empty.
  - exact Hloop.
Defined.

(** E1 and E2 with no response required, at the empty store. *)
Lemma never_required_returns_nothing_witness :
  returned
    (handle_payload ven1
       (distribute "r1" "vtn1" [oadr_event "never" E1; oadr_event "never" E2]) ∅)
  = Ok None.
Proof.
  apply (never_required_returns_nothing ven1
           (distribute "r1" "vtn1" [oadr_event "never" E1; oadr_event "never" E2]) ∅).
  - apply map_Forall_empty.
  - vm_compute. reflexivity.
  - vm_compute. reflexivity.
  - vm_compute. repeat constructor.
Defined.

(** E1 in a payload without a request id. *)
Lemma missing_request_id_raises_witness :
  returned
    (handle_payload ven1 (distribute_anonymous "vtn1" [oadr_event "always" E1]) ∅)
  = Raise TypeError
  /\ is_Some
       (db_after
          (handle_payload ven1
             (distribute_anonymous "vtn1" [oadr_event "always" E1]) ∅)
          !! Some "E1").
Proof.
  destruct (missing_request_id_raises ven1
              (distribute_anonymous "vtn1" [oadr_event "always" E1]) ∅
              (oadr_event "always" E1)) as [Hret Hdb].
  - apply map_Forall_empty.
  - vm_compute. reflexivity.
  - vm_compute. reflexivity.
  - vm_compute. eauto.
  - vm_compute. eauto.
  - vm_compute. eauto.
  - vm_compute. reflexivity.
  - vm_compute. apply list_elem_of_here.
  - vm_compute. reflexivity.
  - split; [exact Hret|]. apply Hdb. vm_compute. apply list_elem_of_here.
Defined.

(** The sample store through a pass. *)
Lemma handle_payload_store_wf_witness :
  store_wf (ns_map ven1) (db_after (handle_payload ven1 twice store12)).
Proof. apply (handle_payload_store_wf ven1 twice store12 store_wf_store12). Defined.

(** E2 at the number 4 through a pass that brings E2 at the number 3. *)
Lemma handle_payload_keeps_not_newer_witness :
  db_after
    (handle_payload ven1
       (distribute "r1" "vtn1"
          [oadr_event "always" (ei_event "E2" "3" "mkt1" [price] [])]) store12)
    !! Some "E2"
  = Some (database.Row (Some "vtn1") 4 E2).
Proof.
  apply (handle_payload_keeps_not_newer ven1
           (distribute "r1" "vtn1"
              [oadr_event "always" (ei_event "E2" "3" "mkt1" [price] [])])
           store12 (Some "E2") (database.Row (Some "vtn1") 4 E2) 4).
  - vm_compute. reflexivity.
  - vm_compute. reflexivity.
  - vm_compute. apply list_elem_of_here.
  - intros oe evt m Hin. vm_compute in Hin.
    apply list_elem_of_singleton in Hin as ->.
    intros Hevt. vm_compute in Hevt. injection Hevt as <-.
    intros _ Hm. vm_compute in Hm. injection Hm as <-. lia.
Defined.
(** E3 received for the first time, with the scheduler that moves the start
    by the tolerance. *)
Lemma accepted_event_is_stored_witness :
  exists st' evt',
    @handle_event late_start ven1 (Some "r1") (Some "vtn1") (start ∅)
      (oadr_event "always" E3_tolerant) = Ok st'
    /\ st_db st' !! Some "E3" = Some (database.Row (Some "vtn1") 2 evt')
    /\ findtext evt' dtstart_path (ns_map ven1) = Some "2013-05-01T10:00:00Z+PT5M".
Proof.
  destruct (@handle_event late_start ven1 (Some "r1") (Some "vtn1") (start ∅)
              (oadr_event "always" E3_tolerant)) as [st'|] eqn:Hst;
    [|vm_compute in Hst; discriminate].
  destruct (@accepted_event_is_stored late_start ven1 (Some "r1") (Some "vtn1")
              (start ∅) (oadr_event "always" E3_tolerant) st' E3_tolerant 2 None)
    as (evt' & Hdb & _ & _ & Hstart);
    [vm_compute; reflexivity..|exact Hst|].
  exists st', evt'. split; [reflexivity|]. split; [exact Hdb|].
  exact Hstart.
Defined.
